(** * daily-digest: the calendar event resolver of [daily_digest.py]

    A shallow embedding of the ICS sanitizer ([_sanitize_ics]), the
    timestamp normaliser ([_norm]), the VEVENT adapter ([_parse_ics]) and
    the primary-or-fallback driver ([gcal_events]), with the properties
    the specification states about them.

    Python [bytes] are lists of [byte]; the [bytes] methods the source
    calls are written out in [PyBytes] with the behaviour CPython gives
    them. *)

From Stdlib Require Import List ZArith Lia Bool String Ascii.
From Stdlib Require Import Strings.Byte.
From Stdlib Require Import Sorting.Sorted Sorting.Permutation.
Import ListNotations.

(* ================================================================== *)
(** ** Python [bytes] *)
(* ================================================================== *)

Module PyBytes.

Definition bytes := list byte.

(** A bytes literal written as a Rocq string. *)
Definition b (s : string) : bytes := list_byte_of_string s.

Definition LF : byte := x0a.
Definition CR : byte := x0d.
Definition SP : byte := x20.
Definition TAB : byte := x09.
Definition COLON : byte := x3a.

(** Truthiness of a bytes object: non-empty. *)
Definition truthy (s : bytes) : bool :=
  match s with [] => false | _ :: _ => true end.

(** [s.startswith(p)] *)
Fixpoint startswith (s p : bytes) : bool :=
  match p, s with
  | [], _ => true
  | _ :: _, [] => false
  | c :: p', d :: s' => Byte.eqb c d && startswith s' p'
  end.

(** [s.replace(old, new)] for a non-empty [old]: the leftmost
    occurrences, not overlapping.  [skip] counts the bytes of a matched
    [old] still to be passed over. *)
Fixpoint replace_from (old new : bytes) (skip : nat) (s : bytes) : bytes :=
  match s with
  | [] => []
  | c :: s' =>
      match skip with
      | S k => replace_from old new k s'
      | O =>
          if startswith s old
          then new ++ replace_from old new (List.length old - 1) s'
          else c :: replace_from old new 0 s'
      end
  end.

Definition replace (s old new : bytes) : bytes := replace_from old new 0 s.

(** [s.split(sep)] for a one-byte separator: never the empty list. *)
Fixpoint split (s : bytes) (sep : byte) : list bytes :=
  match s with
  | [] => [[]]
  | c :: s' =>
      if Byte.eqb c sep then [] :: split s' sep
      else match split s' sep with
           | [] => [[c]]
           | l :: ls => (c :: l) :: ls
           end
  end.

(** [s.split(sep, 1)[0]]: what precedes the first [sep], or all of [s]. *)
Fixpoint split1_head (s : bytes) (sep : byte) : bytes :=
  match s with
  | [] => []
  | c :: s' => if Byte.eqb c sep then [] else c :: split1_head s' sep
  end.

(** [sep in s] for a one-byte [sep]. *)
Fixpoint contains (s : bytes) (sep : byte) : bool :=
  match s with
  | [] => false
  | c :: s' => Byte.eqb c sep || contains s' sep
  end.

(** The bytes [bytes.strip()] removes: space, TAB, LF, VT, FF, CR. *)
Definition is_space (c : byte) : bool :=
  match c with
  | x09 | x0a | x0b | x0c | x0d | x20 => true
  | _ => false
  end.

Definition is_digit (c : byte) : bool :=
  match c with
  | x30 | x31 | x32 | x33 | x34 | x35 | x36 | x37 | x38 | x39 => true
  | _ => false
  end.

Fixpoint lstrip (s : bytes) : bytes :=
  match s with
  | [] => []
  | c :: s' => if is_space c then lstrip s' else s
  end.

Fixpoint rstrip (s : bytes) : bytes :=
  match s with
  | [] => []
  | c :: s' =>
      match rstrip s' with
      | [] => if is_space c then [] else [c]
      | r => c :: r
      end
  end.

(** [s.strip()] *)
Definition strip (s : bytes) : bytes := rstrip (lstrip s).

(** [s.isdigit()]: non-empty and every byte an ASCII digit. *)
Definition isdigit (s : bytes) : bool := truthy s && forallb is_digit s.

(** [sep.join(ls)] *)
Fixpoint join (sep : bytes) (ls : list bytes) : bytes :=
  match ls with
  | [] => []
  | [l] => l
  | l :: ls' => l ++ sep ++ join sep ls'
  end.

(** [s[1:]] *)
Definition from1 (s : bytes) : bytes := tl s.

End PyBytes.

(* ================================================================== *)
(** ** The sanitizer *)
(* ================================================================== *)

Module Sanitizer.
Import PyBytes.

(** [raw.replace(b"\r\n", b"\n").replace(b"\r", b"\n")] *)
Definition normalize_newlines (raw : bytes) : bytes :=
  replace (replace raw [CR; LF] [LF]) [CR] [LF].

Definition is_continuation (line : bytes) : bool :=
  startswith line [SP] || startswith line [TAB].

(** The state of the unfolding loop: [(unfolded_lines, current_line)]. *)
Definition unfold_state := (list bytes * bytes)%type.

(** One iteration of [for line in txt.split(b"\n")]. *)
Definition unfold_step (st : unfold_state) (line : bytes) : unfold_state :=
  let '(unfolded_lines, current_line) := st in
  if is_continuation line
  then (unfolded_lines, current_line ++ from1 line)
  else ((if truthy current_line
         then unfolded_lines ++ [current_line]
         else unfolded_lines),
        line).

(** The flush after the loop: "don't forget the last line". *)
Definition unfold_finish (st : unfold_state) : list bytes :=
  let '(unfolded_lines, current_line) := st in
  if truthy current_line then unfolded_lines ++ [current_line]
  else unfolded_lines.

Definition unfold_lines (txt : bytes) : list bytes :=
  unfold_finish (fold_left unfold_step (split txt LF) ([], [])).

(** One iteration of [for line in unfolded_lines]. *)
Definition filter_step (sanitized_lines : list bytes) (line : bytes)
  : list bytes :=
  if negb (truthy (strip line)) then sanitized_lines
  else if contains line COLON then
         let prop := strip (split1_head line COLON) in
         if isdigit prop then sanitized_lines
         else sanitized_lines ++ [line]
       else sanitized_lines ++ [line].

(** The logical lines of the feed, before the filter. *)
Definition unfolded_lines (raw : bytes) : list bytes :=
  unfold_lines (normalize_newlines raw).

(** The lines that survive, before they are joined. *)
Definition sanitized_lines (raw : bytes) : list bytes :=
  fold_left filter_step (unfolded_lines raw) [].

Definition _sanitize_ics (raw : bytes) : bytes :=
  join [LF] (sanitized_lines raw).

End Sanitizer.

(* ================================================================== *)
(** ** Python [datetime] *)
(* ================================================================== *)

(** A naive datetime is its position on the proleptic Gregorian time
    line, in microseconds since 1970-01-01T00:00:00; a [date] is its day
    number since 1970-01-01; a [timedelta] is a number of microseconds.
    The range check of CPython (years 1 to 9999, [OverflowError] outside)
    is not modelled.  An aware datetime adds the [fold] bit and the
    [tzinfo] object. *)

Module PyDatetime.
Open Scope Z_scope.

Definition timedelta := Z.

Definition US_PER_SECOND : Z := 1000000.
Definition US_PER_MINUTE : Z := 60 * US_PER_SECOND.
Definition US_PER_HOUR : Z := 60 * US_PER_MINUTE.
Definition US_PER_DAY : Z := 24 * US_PER_HOUR.

(** [timedelta(hours=h)] *)
Definition timedelta_hours (h : Z) : timedelta := h * US_PER_HOUR.

(** A [tzinfo] object.  [tz_id] stands for the identity of the object
    (the [is] test of CPython; [ZoneInfo] hands out one object per key).
    [tz_utcoffset wall fold] is [tzinfo.utcoffset] of a datetime with
    these fields; [tz_fromutc utc] gives the offset and the fold of the
    local time that [tzinfo.fromutc] returns for the instant [utc]. *)
Record tzinfo := mk_tzinfo {
  tz_id : string;
  tz_utcoffset : Z -> bool -> timedelta;
  tz_fromutc : Z -> timedelta * bool
}.

(** A zone with one offset for all time. *)
Definition fixed_zone (id : string) (off : timedelta) : tzinfo :=
  mk_tzinfo id (fun _ _ => off) (fun _ => (off, false)).

(** [ZoneInfo("UTC")] *)
Definition UTC : tzinfo := fixed_zone "UTC" 0.

(** [a is b] on tzinfo objects *)
Definition tz_is (a b : tzinfo) : bool := String.eqb (tz_id a) (tz_id b).

Record aware := mk_aware {
  wall : Z;
  fold : bool;
  tzinfo_of : tzinfo
}.

Inductive pydatetime :=
| Naive (w : Z)
| Aware (a : aware).

(** [datetime.combine(d, time.min)] *)
Definition combine_min (d : Z) : Z := d * US_PER_DAY.

(** [dt.replace(tzinfo=tz)] on a naive datetime *)
Definition replace_tzinfo (w : Z) (tz : tzinfo) : aware :=
  mk_aware w false tz.

(** [dt.utcoffset()] *)
Definition utcoffset (a : aware) : timedelta :=
  tz_utcoffset (tzinfo_of a) (wall a) (fold a).

(** The instant of an aware datetime on the UTC time line. *)
Definition utc_of (a : aware) : Z := wall a - utcoffset a.

(** [dt.astimezone(tz)] on an aware datetime: [dt] itself when
    [tz is dt.tzinfo], else [tz.fromutc] of the UTC instant. *)
Definition astimezone (a : aware) (tz : tzinfo) : aware :=
  if tz_is tz (tzinfo_of a) then a
  else let u := utc_of a in
       let '(off, fo) := tz_fromutc tz u in
       mk_aware (u + off) fo tz.

(** [a - b] on aware datetimes: the difference of the fields when the
    tzinfo is the same object or the offsets agree, else of the UTC
    instants. *)
Definition dt_sub (a c : aware) : timedelta :=
  if tz_is (tzinfo_of a) (tzinfo_of c) then wall a - wall c
  else utc_of a - utc_of c.

(** [a + d]: field arithmetic, the fold is reset. *)
Definition dt_add (a : aware) (d : timedelta) : aware :=
  mk_aware (wall a + d) false (tzinfo_of a).

(** Does the offset of [a] depend on its fold bit? *)
Definition fold_sensitive (a : aware) : bool :=
  negb (utcoffset a =? tz_utcoffset (tzinfo_of a) (wall a) (negb (fold a))).

(** [a == c] on aware datetimes: the fields when the tzinfo is the same
    object; across zones a datetime in a fold or a gap equals nothing,
    and the others are compared as UTC instants. *)
Definition dt_eq (a c : aware) : bool :=
  if tz_is (tzinfo_of a) (tzinfo_of c) then wall a =? wall c
  else if fold_sensitive a || fold_sensitive c then false
  else utc_of a =? utc_of c.

(** [a <= c] and [a >= c] on aware datetimes *)
Definition dt_le (a c : aware) : bool := dt_sub a c <=? 0.
Definition dt_ge (a c : aware) : bool := 0 <=? dt_sub a c.

(** *** Civil dates *)

(** Day number of a proleptic Gregorian date. *)
Definition days_from_civil (y m d : Z) : Z :=
  let y' := if m <=? 2 then y - 1 else y in
  let era := y' / 400 in
  let yoe := y' - era * 400 in
  let mp := if 2 <? m then m - 3 else m + 9 in
  let doy := (153 * mp + 2) / 5 + d - 1 in
  let doe := yoe * 365 + yoe / 4 - yoe / 100 + doy in
  era * 146097 + doe - 719468.

(** Year, month and day of a day number. *)
Definition civil_from_days (z : Z) : Z * Z * Z :=
  let z' := z + 719468 in
  let era := z' / 146097 in
  let doe := z' - era * 146097 in
  let yoe := (doe - doe / 1460 + doe / 36524 - doe / 146096) / 365 in
  let doy := doe - (365 * yoe + yoe / 4 - yoe / 100) in
  let mp := (5 * doy + 2) / 153 in
  let d := doy - (153 * mp + 2) / 5 + 1 in
  let m := if mp <? 10 then mp + 3 else mp - 9 in
  let y := yoe + era * 400 in
  ((if m <=? 2 then y + 1 else y), m, d).

(** [datetime(y, m, d, hh, mm, ss)] as a naive datetime *)
Definition naive_of_fields (y m d hh mm ss : Z) : Z :=
  days_from_civil y m d * US_PER_DAY
  + hh * US_PER_HOUR + mm * US_PER_MINUTE + ss * US_PER_SECOND.

(** *** Formatting *)

Definition digit_char (n : Z) : ascii :=
  ascii_of_nat (48 + Z.to_nat (n mod 10)).

(** The last [width] decimal digits of [n], zero padded, before [acc]. *)
Fixpoint pad_digits (width : nat) (n : Z) (acc : string) : string :=
  match width with
  | O => acc
  | S w => pad_digits w (n / 10) (String (digit_char n) acc)
  end.

Definition dec (width : nat) (n : Z) : string := pad_digits width n "".

(** ["%Y-%m-%dT%H:%M:%S"] with the fraction when it is not zero *)
Definition isoformat_naive (w : Z) : string :=
  let '(y, m, d) := civil_from_days (w / US_PER_DAY) in
  let r := w mod US_PER_DAY in
  let us := r mod US_PER_SECOND in
  (dec 4 y ++ "-" ++ dec 2 m ++ "-" ++ dec 2 d ++ "T"
   ++ dec 2 (r / US_PER_HOUR) ++ ":"
   ++ dec 2 (r / US_PER_MINUTE mod 60) ++ ":"
   ++ dec 2 (r / US_PER_SECOND mod 60)
   ++ (if (us =? 0)%Z then "" else "." ++ dec 6 us))%string.

(** The UTC offset as [+HH:MM], with [:SS] and [.ffffff] when needed *)
Definition format_offset (off : timedelta) : string :=
  let a := Z.abs off in
  let s := a / US_PER_SECOND mod 60 in
  let us := a mod US_PER_SECOND in
  ((if (off <? 0)%Z then "-" else "+")
   ++ dec 2 (a / US_PER_HOUR) ++ ":" ++ dec 2 (a / US_PER_MINUTE mod 60)
   ++ (if (us =? 0)%Z
       then (if (s =? 0)%Z then "" else ":" ++ dec 2 s)
       else ":" ++ dec 2 s ++ "." ++ dec 6 us))%string.

(** [dt.isoformat()] on an aware datetime *)
Definition isoformat (a : aware) : string :=
  (isoformat_naive (wall a) ++ format_offset (utcoffset a))%string.

(** [dt.strftime("%Y%m%dT%H%M%SZ")] *)
Definition strftime_basic_z (a : aware) : string :=
  let w := wall a in
  let '(y, m, d) := civil_from_days (w / US_PER_DAY) in
  let r := w mod US_PER_DAY in
  (dec 4 y ++ dec 2 m ++ dec 2 d ++ "T"
   ++ dec 2 (r / US_PER_HOUR) ++ dec 2 (r / US_PER_MINUTE mod 60)
   ++ dec 2 (r / US_PER_SECOND mod 60) ++ "Z")%string.

End PyDatetime.

(* ================================================================== *)
(** ** Python [str] *)
(* ================================================================== *)

Module PyStr.

Definition upper_char (c : ascii) : ascii :=
  let n := nat_of_ascii c in
  if (97 <=? n)%nat && (n <=? 122)%nat then ascii_of_nat (n - 32) else c.

Definition lower_char (c : ascii) : ascii :=
  let n := nat_of_ascii c in
  if (65 <=? n)%nat && (n <=? 90)%nat then ascii_of_nat (n + 32) else c.

Fixpoint map_str (f : ascii -> ascii) (s : string) : string :=
  match s with
  | EmptyString => EmptyString
  | String c s' => String (f c) (map_str f s')
  end.

(** [s.upper()] and [s.lower()], on ASCII letters.  The keys of a parsed
    recurrence rule are stored in upper case by the calendar library,
    and a content type is ASCII. *)
Definition upper (s : string) : string := map_str upper_char s.
Definition lower (s : string) : string := map_str lower_char s.

(** Truthiness of a [str]: non-empty. *)
Definition truthy (s : string) : bool :=
  match s with EmptyString => false | String _ _ => true end.

(** [s.startswith(p)] *)
Definition startswith (s p : string) : bool := String.prefix p s.

(** [sub in s] *)
Fixpoint contains (s sub : string) : bool :=
  String.prefix sub s
  || match s with
     | EmptyString => false
     | String _ s' => contains s' sub
     end.

(** [sep.join(ls)] *)
Definition join (sep : string) (ls : list string) : string :=
  String.concat sep ls.

Definition newline : string := String (ascii_of_nat 10) EmptyString.

(** [a or b] where each may be [None] or a [str] *)
Definition or_else (a c : option string) : option string :=
  match a with
  | Some s => if truthy s then a else c
  | None => c
  end.

End PyStr.

(* ================================================================== *)
(** ** Exceptions *)
(* ================================================================== *)

Module Exn.

(** The two classes of exception the source tells apart: [ValueError],
    which the recurrence branch catches, and any other [Exception]. *)
Inductive exn := ValueError | OtherError.

Inductive result (A : Type) : Type :=
| Ok (a : A)
| Raise (e : exn).
Arguments Ok {A} a.
Arguments Raise {A} e.

Definition bind {A B : Type} (r : result A) (k : A -> result B) : result B :=
  match r with
  | Ok a => k a
  | Raise e => Raise e
  end.

(** A [for] loop whose body may raise. *)
Fixpoint for_each {S X : Type} (body : S -> X -> result S)
         (xs : list X) (st : S) : result S :=
  match xs with
  | [] => Ok st
  | x :: xs' => bind (body st x) (for_each body xs')
  end.

End Exn.

Notation "x <- r ;; k" := (Exn.bind r (fun x => k))
  (at level 61, r at next level, right associativity).

(* ================================================================== *)
(** ** The calendar resolver: [gcal_events] *)
(* ================================================================== *)

Module Calendar.
Import PyBytes Sanitizer PyDatetime Exn.
Open Scope string_scope.
Open Scope list_scope.

(** The [.dt] of a parsed [DTSTART] or [DTEND]: a [date], a [datetime],
    or a value of another type. *)
Inductive dtvalue :=
| DDate (d : Z)
| DDatetime (v : pydatetime)
| DOther.

(** What the source reads of a VEVENT: [comp.get("summary")],
    [comp.get("dtstart")], [comp.get("dtend")] and [comp.get("rrule")].
    A rule is the list of its [items()], each value already the [str]
    of the library's object. *)
Record vevent := mk_vevent {
  summary : option string;
  dtstart : option dtvalue;
  dtend : option dtvalue;
  rrule : option (list (string * list string))
}.

(** The dictionaries returned: [{"title", "start", "end"}]; the
    fallback may store [None] for a time. *)
Record event := mk_event_dict {
  title : string;
  start : option string;
  end_ : option string
}.

Definition placeholder : string := "(sem título)".

Definition valid_rrule_props : list string :=
  ["FREQ"; "UNTIL"; "COUNT"; "INTERVAL"; "BYSECOND"; "BYMINUTE"; "BYHOUR";
   "BYDAY"; "BYMONTHDAY"; "BYYEARDAY"; "BYWEEKNO"; "BYMONTH"; "BYSETPOS";
   "WKST"].

Definition in_valid_props (k : string) : bool :=
  existsb (String.eqb k) valid_rrule_props.

(** The key of [events.sort(key=lambda x: x["start"])]. *)
Definition start_key (ev : event) : string :=
  match start ev with Some s => s | None => "" end.

(** [list.sort] is stable: an element goes before the first one whose
    key is not smaller. *)
Fixpoint insert_by_start (ev : event) (l : list event) : list event :=
  match l with
  | [] => [ev]
  | x :: l' =>
      if String.leb (start_key ev) (start_key x) then ev :: l
      else x :: insert_by_start ev l'
  end.

Definition sort_by_start (l : list event) : list event :=
  fold_right insert_by_start [] l.

(** One HTTP response of [requests.get], as far as the source reads it. *)
Record response := mk_response {
  resp_ok : bool;
  resp_content_type : string;
  resp_content : bytes
}.

(** One item of the Calendar API listing. *)
Record api_item := mk_api_item {
  item_summary : option string;
  item_start_dateTime : option string;
  item_start_date : option string;
  item_end_dateTime : option string;
  item_end_date : option string
}.

(** The response of the Calendar API: [r.ok] and
    [r.json().get("items", [])]. *)
Record api_response := mk_api_response {
  api_ok : bool;
  api_items : result (list api_item)
}.

Section Resolver.

(** The module global [TZ]. *)
Variable TZ : tzinfo.

(** [Calendar.from_ical(sanitized)] followed by [cal.walk("vevent")]. *)
Variable from_ical : bytes -> result (list vevent).

(** [dateutil.rrule.rrulestr(text, forceset=True)] and
    [rule.between(w0, w1, inc=True)]. *)
Variable rule : Type.
Variable rrulestr : string -> result rule.
Variable between : rule -> aware -> aware -> result (list pydatetime).

(** The environment and the network. *)
Variable ics_src : option string.
Variable token : option string.
Variable requests_get : string -> result response.
Variable read_file : string -> result bytes.
Variable calendar_api : string -> string -> string -> result api_response.

(** The arguments of [gcal_events]. *)
Variables START END : aware.

Definition _norm (dtv : dtvalue) : option aware :=
  match dtv with
  | DDate d => Some (replace_tzinfo (combine_min d) TZ)
  | DDatetime (Naive w) => Some (astimezone (replace_tzinfo w UTC) TZ)
  | DDatetime (Aware a) => Some (astimezone a TZ)
  | DOther => None
  end.

(** The copy of the sanitizer nested in [_parse_ics]. *)
Definition sanitize_ics (raw : bytes) : bytes :=
  let txt := normalize_newlines raw in
  let unfolded_lines := unfold_lines txt in
  let sanitized_lines := fold_left filter_step unfolded_lines [] in
  PyBytes.join [LF] sanitized_lines.

(** [str(comp.get("summary") or "(sem título)")] *)
Definition title_of (comp : vevent) : string :=
  match summary comp with
  | Some s => if PyStr.truthy s then s else placeholder
  | None => placeholder
  end.

Definition mk_event (t : string) (s e : aware) : event :=
  mk_event_dict t (Some (isoformat s)) (Some (isoformat e)).

(** One iteration of [for k, v in rr.items()]. *)
Definition rrule_part_step (parts : list string)
           (kv : string * list string) : list string :=
  let '(k, v) := kv in
  if negb (in_valid_props (PyStr.upper k)) then parts
  else parts ++ [(k ++ "=" ++ PyStr.join "," v)%string].

(** [occ_local] and [oe] of one enumerated start. *)
Definition occurrence_of (s1 e1 : aware) (occ : pydatetime)
  : aware * aware :=
  let occ_local :=
    match occ with
    | Aware a => astimezone a TZ
    | Naive w => astimezone (replace_tzinfo w UTC) TZ
    end in
  let dur := dt_sub e1 s1 in
  let oe := dt_add occ_local dur in
  (occ_local, oe).

(** One iteration of [for occ in rule.between(w0, w1, inc=True)]. *)
Definition occurrence_step (t : string) (s1 e1 : aware)
           (events : list event) (occ : pydatetime) : list event :=
  let '(occ_local, oe) := occurrence_of s1 e1 occ in
  if dt_le occ_local END && dt_ge oe START
  then events ++ [mk_event t occ_local oe]
  else events.

(** The recurring branch of the loop body. *)
Definition expand (t : string) (s1 e1 : aware)
           (rr : list (string * list string)) (events : list event)
  : result (list event) :=
  let parts := fold_left rrule_part_step rr [] in
  match parts with
  | [] => Ok events
  | _ :: _ =>
      let rrule_str := PyStr.join ";" parts in
      let dtstart_utc := strftime_basic_z (astimezone s1 UTC) in
      match rrulestr ("DTSTART:" ++ dtstart_utc ++ PyStr.newline
                      ++ "RRULE:" ++ rrule_str)%string with
      | Raise ValueError => Ok events
      | Raise e => Raise e
      | Ok r =>
          let w0 := astimezone START UTC in
          let w1 := astimezone END UTC in
          occs <- between r w0 w1 ;;
          Ok (fold_left (occurrence_step t s1 e1) occs events)
      end
  end.

(** One iteration of [for comp in cal.walk("vevent")]. *)
Definition component_step (events : list event) (comp : vevent)
  : result (list event) :=
  let t := title_of comp in
  match dtstart comp with
  | None => Ok events
  | Some ds =>
      let s1 := _norm ds in
      let e1 :=
        match dtend comp with
        | Some de => _norm de
        | None =>
            match s1 with
            | Some s => Some (dt_add s (timedelta_hours 1))
            | None => None
            end
        end in
      match s1, e1 with
      | Some s1, Some e1 =>
          match rrule comp with
          | Some ((_ :: _) as rr) => expand t s1 e1 rr events
          | _ =>
              (* [not rr]: no rule, or a rule without items *)
              if dt_le s1 END && dt_ge e1 START
              then Ok (events ++ [mk_event t s1 e1])
              else Ok events
          end
      | _, _ => Ok events
      end
  end.

Definition _parse_ics (raw : bytes) : result (list event) :=
  let sanitized := sanitize_ics raw in
  comps <- from_ical sanitized ;;
  events <- for_each component_step comps [] ;;
  Ok (sort_by_start events).

(** [to_iso_z] *)
Definition to_iso_z (d : aware) : string := isoformat (astimezone d UTC).

(** Step 1 of [gcal_events], inside its [try].  [Ok (Some evs)]: the
    function returns [evs]; [Ok None]: a warning is printed and the
    [try] block ends. *)
Definition ics_attempt (src : string) : result (option (list event)) :=
  if PyStr.startswith src "http://" || PyStr.startswith src "https://"
  then
    resp <- requests_get src ;;
    let ct := resp_content_type resp in
    if negb (resp_ok resp) then Ok None
    else if negb (PyStr.contains (PyStr.lower ct) "text/calendar")
         then Ok None
         else (evs <- _parse_ics (resp_content resp) ;; Ok (Some evs))
  else
    raw <- read_file src ;;
    evs <- _parse_ics raw ;;
    Ok (Some evs).

(** Step 1 with its [except Exception]: what the function returns
    from the primary source, if it does. *)
Definition primary : option (list event) :=
  match ics_src with
  | Some src =>
      if PyStr.truthy src then
        match ics_attempt src with
        | Ok r => r
        | Raise _ => None
        end
      else None
  | None => None
  end.

(** One iteration of [for ev in r.json().get("items", [])]. *)
Definition api_item_step (out : list event) (ev : api_item) : list event :=
  let t :=
    match item_summary ev with
    | Some s => if PyStr.truthy s then s else placeholder
    | None => placeholder
    end in
  let start_dt :=
    PyStr.or_else (item_start_dateTime ev) (item_start_date ev) in
  let end_dt := PyStr.or_else (item_end_dateTime ev) (item_end_date ev) in
  out ++ [mk_event_dict t start_dt end_dt].

(** Step 2: the Calendar API, for a token that is set. *)
Definition fallback (tok : string) : result (list event) :=
  r <- calendar_api tok (to_iso_z START) (to_iso_z END) ;;
  if negb (api_ok r) then Ok []
  else items <- api_items r ;;
       Ok (fold_left api_item_step items []).

Definition gcal_events : result (list event) :=
  match primary with
  | Some evs => Ok evs
  | None =>
      match token with
      | Some tok => if PyStr.truthy tok then fallback tok else Ok []
      | None => Ok []
      end
  end.

End Resolver.

Arguments expand TZ {rule} rrulestr between START END t s1 e1 rr events.
Arguments component_step TZ {rule} rrulestr between START END events comp.
Arguments _parse_ics TZ from_ical {rule} rrulestr between START END raw.
Arguments ics_attempt TZ from_ical {rule} rrulestr between
  requests_get read_file START END src.
Arguments primary TZ from_ical {rule} rrulestr between
  ics_src requests_get read_file START END.
Arguments gcal_events TZ from_ical {rule} rrulestr between
  ics_src token requests_get read_file calendar_api START END.

End Calendar.

(* ================================================================== *)
(** ** Stand-ins for the libraries, for the examples *)
(* ================================================================== *)

(** The theorems below hold for every calendar parser and every rule
    evaluator.  To run the resolver on concrete feeds, [ICalModel] reads
    the part of the iCalendar format the examples use: content lines
    [NAME:VALUE] without parameters, VEVENT blocks, [SUMMARY], [DTSTART]
    and [DTEND] in the forms [YYYYMMDD], [YYYYMMDDTHHMMSS] and
    [YYYYMMDDTHHMMSSZ], and [RRULE] as [KEY=V,V;KEY=V].  Anything else
    is a [ValueError]. *)

Module ICalModel.
Import PyBytes PyDatetime Exn Calendar.
Open Scope string_scope.
Open Scope list_scope.

Definition SEMI : byte := x3b.
Definition EQUALS : byte := x3d.
Definition COMMA : byte := x2c.

Definition digit_val (c : byte) : option Z :=
  if is_digit c then Some (Z.of_N (Byte.to_N c) - 48)%Z else None.

Fixpoint number (s : bytes) (acc : Z) : option Z :=
  match s with
  | [] => Some acc
  | c :: s' =>
      match digit_val c with
      | Some d => number s' (10 * acc + d)%Z
      | None => None
      end
  end.

(** The decimal field of [len] bytes at offset [from]. *)
Definition field (s : bytes) (from len : nat) : option Z :=
  let f := firstn len (skipn from s) in
  if Nat.eqb (List.length f) len then number f 0%Z else None.

Definition parse_date (s : bytes) : option Z :=
  match field s 0 4, field s 4 2, field s 6 2 with
  | Some y, Some m, Some d =>
      if ((1 <=? m) && (m <=? 12) && (1 <=? d) && (d <=? 31))%Z
      then Some (days_from_civil y m d) else None
  | _, _, _ => None
  end.

Definition parse_datetime (s : bytes) : option Z :=
  match parse_date s, nth_error s 8,
        field s 9 2, field s 11 2, field s 13 2 with
  | Some day, Some x54, Some hh, Some mm, Some ss =>
      if ((hh <=? 23) && (mm <=? 59) && (ss <=? 59))%Z
      then Some (day * US_PER_DAY + hh * US_PER_HOUR
                 + mm * US_PER_MINUTE + ss * US_PER_SECOND)%Z
      else None
  | _, _, _, _, _ => None
  end.

Definition parse_ddd (v : bytes) : option dtvalue :=
  match List.length v with
  | 8%nat => option_map DDate (parse_date v)
  | 15%nat => option_map (fun w => DDatetime (Naive w)) (parse_datetime v)
  | 16%nat =>
      match nth_error v 15 with
      | Some x5a =>
          option_map (fun w => DDatetime (Aware (replace_tzinfo w UTC)))
                     (parse_datetime v)
      | _ => None
      end
  | _ => None
  end.

Definition str (s : bytes) : string := string_of_list_byte s.

(** [KEY=V,V;KEY=V]; a pair without exactly one [=] is passed over. *)
Definition parse_recur (v : bytes) : list (string * list string) :=
  fold_left
    (fun recur pair =>
       match split pair EQUALS with
       | [key; vals] =>
           recur ++ [(PyStr.upper (str key), map str (split vals COMMA))]
       | _ => recur
       end)
    (split v SEMI) [].

Definition no_props : vevent := mk_vevent None None None None.

Definition set_prop (name : string) (value : bytes) (ev : vevent)
  : result vevent :=
  if String.eqb name "SUMMARY" then
    Ok (mk_vevent (Some (str value)) (dtstart ev) (dtend ev) (rrule ev))
  else if String.eqb name "DTSTART" then
    match parse_ddd value with
    | Some d => Ok (mk_vevent (summary ev) (Some d) (dtend ev) (rrule ev))
    | None => Raise ValueError
    end
  else if String.eqb name "DTEND" then
    match parse_ddd value with
    | Some d => Ok (mk_vevent (summary ev) (dtstart ev) (Some d) (rrule ev))
    | None => Raise ValueError
    end
  else if String.eqb name "RRULE" then
    Ok (mk_vevent (summary ev) (dtstart ev) (dtend ev)
                  (Some (parse_recur value)))
  else Ok ev.

(** The VEVENT being read, if any, and the ones read. *)
Definition pstate := (option vevent * list vevent)%type.

Definition line_step (st : pstate) (line : bytes) : result pstate :=
  if negb (contains line COLON) then Raise ValueError
  else
    let head := split1_head line COLON in
    if contains head SEMI then Raise ValueError
    else
      let name := PyStr.upper (str head) in
      let value := skipn (S (List.length head)) line in
      let '(cur, done) := st in
      match cur with
      | None =>
          if String.eqb name "BEGIN"
             && String.eqb (PyStr.upper (str value)) "VEVENT"
          then Ok (Some no_props, done)
          else Ok st
      | Some ev =>
          if String.eqb name "END"
             && String.eqb (PyStr.upper (str value)) "VEVENT"
          then Ok (None, done ++ [ev])
          else (ev' <- set_prop name value ev ;; Ok (Some ev', done))
      end.

Definition from_ical (data : bytes) : result (list vevent) :=
  st <- for_each line_step (split data LF) (None, []) ;;
  Ok (snd st).

(** A rule evaluator for the examples: a rule is the list of its
    starts, [between] keeps those inside the bounds. *)
Definition series := list aware.

Definition between (r : series) (w0 w1 : aware) : result (list pydatetime) :=
  Ok (map Aware (filter (fun o => dt_le w0 o && dt_le o w1) r)).

End ICalModel.

(* ================================================================== *)
(** ** The words of the specification *)
(* ================================================================== *)

Module Spec.
Import PyBytes Sanitizer PyDatetime Exn Calendar.
Open Scope string_scope.
Open Scope list_scope.

(** A whitespace-only line (the empty line included). *)
Definition Blank (l : bytes) : Prop :=
  Forall (fun c => is_space c = true) l.

Definition Digits (l : bytes) : Prop :=
  Forall (fun c => is_digit c = true) l.

(** The property name of [l] (what precedes its first colon), trimmed,
    consists solely of decimal digits: [l] is blanks, one digit or
    more, blanks, then the colon.  Neither a blank nor a digit is a
    colon, so that colon is the first one. *)
Definition DigitOnlyName (l : bytes) : Prop :=
  exists pre digits post value,
    l = pre ++ digits ++ post ++ COLON :: value
    /\ Blank pre /\ Digits digits /\ digits <> [] /\ Blank post.

(** The test of the filter loop: does the loop pass over [line]? *)
Definition dropped (line : bytes) : bool :=
  negb (truthy (strip line))
  || (contains line COLON && isdigit (strip (split1_head line COLON))).

Definition NoColon (l : bytes) : Prop := ~ In COLON l.

(** No physical line that is a continuation opens a logical line: the
    first line of the feed is not a continuation, and no continuation
    directly follows an empty line. *)
Fixpoint well_folded_from (prev_empty : bool) (lines : list bytes) : bool :=
  match lines with
  | [] => true
  | l :: ls =>
      negb (prev_empty && is_continuation l)
      && well_folded_from (negb (truthy l)) ls
  end.

Definition well_folded (raw : bytes) : bool :=
  well_folded_from true (split (normalize_newlines raw) LF).

(** A logical line without a continuation marker left at its head. *)
Definition clean_head (l : bytes) : Prop := is_continuation l = false.

(** A line with nothing left to repair. *)
Definition settled (l : bytes) : Prop :=
  l <> [] /\ ~ In LF l /\ ~ In CR l /\ clean_head l /\ dropped l = false.

(** The normalised start and end of a component: the start is
    required, the end defaults to one hour after the start. *)
Definition normalized_times (TZ : tzinfo) (comp : vevent)
  : option (aware * aware) :=
  match dtstart comp with
  | None => None
  | Some ds =>
      match _norm TZ ds with
      | None => None
      | Some s1 =>
          match match dtend comp with
                | Some de => _norm TZ de
                | None => Some (dt_add s1 (timedelta_hours 1))
                end with
          | Some e1 => Some (s1, e1)
          | None => None
          end
      end
  end.

(** A key of a rule outside the allow-list. *)
Definition unrecognized (kv : string * list string) : Prop :=
  ~ In (PyStr.upper (fst kv)) valid_rrule_props.

(** The occurrence the fallback client reports for one item. *)
Definition event_of_item (ev : api_item) : event :=
  mk_event_dict
    (match item_summary ev with
     | Some s => if PyStr.truthy s then s else placeholder
     | None => placeholder
     end)
    (PyStr.or_else (item_start_dateTime ev) (item_start_date ev))
    (PyStr.or_else (item_end_dateTime ev) (item_end_date ev)).

Definition is_url (src : string) : bool :=
  PyStr.startswith src "http://" || PyStr.startswith src "https://".

Definition calendar_type (ct : string) : bool :=
  PyStr.contains (PyStr.lower ct) "text/calendar".


End Spec.

(* ================================================================== *)
(** ** Concrete feeds and windows *)
(* ================================================================== *)

Module Examples.
Import PyBytes Sanitizer PyDatetime Exn Calendar.
Open Scope string_scope.
Open Scope list_scope.

Definition CRLF : bytes := [CR; LF].

(** [ZoneInfo("America/Sao_Paulo")] as the zone is since 2019, when
    Brazil gave up daylight saving time: three hours behind UTC. *)
Definition America_Sao_Paulo : tzinfo :=
  fixed_zone "America/Sao_Paulo" (timedelta_hours (-3)).

(** The window [2025-09-19T00:00:00-03:00, 2025-09-19T23:59:59-03:00]. *)
Definition day_start : aware :=
  replace_tzinfo (naive_of_fields 2025 9 19 0 0 0) America_Sao_Paulo.
Definition day_end : aware :=
  replace_tzinfo (naive_of_fields 2025 9 19 23 59 59) America_Sao_Paulo.

Definition utc_datetime (y m d hh mm ss : Z) : dtvalue :=
  DDatetime (Aware (replace_tzinfo (naive_of_fields y m d hh mm ss) UTC)).

(** The VEVENT of the end-to-end scenario, as parsed. *)
Definition standup : vevent :=
  mk_vevent (Some "Standup")
            (Some (utc_datetime 2025 9 19 14 0 0))
            (Some (utc_datetime 2025 9 19 15 0 0))
            None.

(** A feed that holds it. *)
Definition standup_feed : bytes :=
  b "BEGIN:VCALENDAR" ++ CRLF
  ++ b "VERSION:2.0" ++ CRLF
  ++ b "BEGIN:VEVENT" ++ CRLF
  ++ b "DTSTART:20250919T140000Z" ++ CRLF
  ++ b "DTEND:20250919T150000Z" ++ CRLF
  ++ b "SUMMARY:Standup" ++ CRLF
  ++ b "END:VEVENT" ++ CRLF
  ++ b "END:VCALENDAR" ++ CRLF.

Definition standup_event : event :=
  mk_event_dict "Standup"
                (Some "2025-09-19T11:00:00-03:00")
                (Some "2025-09-19T12:00:00-03:00").

(** The date 2025-09-19. *)
Definition sept_19 : Z := days_from_civil 2025 9 19.

(** The same VEVENT with a rule that is present and has no part, as
    the content line [RRULE:] gives it. *)
Definition standup_empty_rule : vevent :=
  mk_vevent (summary standup) (dtstart standup) (dtend standup) (Some []).

Definition empty_rule_feed : bytes :=
  b "BEGIN:VEVENT" ++ CRLF
  ++ b "DTSTART:20250919T140000Z" ++ CRLF
  ++ b "DTEND:20250919T150000Z" ++ CRLF
  ++ b "SUMMARY:Standup" ++ CRLF
  ++ b "RRULE:" ++ CRLF
  ++ b "END:VEVENT" ++ CRLF.

(** The same VEVENT with a rule of unrecognized parts only. *)
Definition standup_unknown_rule : vevent :=
  mk_vevent (summary standup) (dtstart standup) (dtend standup)
            (Some [("X-FOO", ["1"]); ("X-BAR", ["A"; "B"])]).

(** A daily half-hour meeting from 2025-09-17T09:00:00Z on. *)
Definition daily : vevent :=
  mk_vevent (Some "Daily")
            (Some (utc_datetime 2025 9 17 9 0 0))
            (Some (utc_datetime 2025 9 17 9 30 0))
            (Some [("FREQ", ["DAILY"]); ("COUNT", ["5"])]).

Definition daily_start : aware :=
  replace_tzinfo (naive_of_fields 2025 9 17 6 0 0) America_Sao_Paulo.
Definition daily_end : aware :=
  replace_tzinfo (naive_of_fields 2025 9 17 6 30 0) America_Sao_Paulo.

(** Its five starts, as the rule evaluator enumerates them. *)
Definition daily_series : ICalModel.series :=
  map (fun d => replace_tzinfo (naive_of_fields 2025 9 d 9 0 0) UTC)
      [17; 18; 19; 20; 21]%Z.

Definition daily_rrulestr (text : string) : result ICalModel.series :=
  Ok daily_series.

(** The occurrences of [daily] in the four-day window below. *)
Definition daily_events : list event :=
  [mk_event_dict "Daily" (Some "2025-09-18T06:00:00-03:00")
                 (Some "2025-09-18T06:30:00-03:00");
   mk_event_dict "Daily" (Some "2025-09-19T06:00:00-03:00")
                 (Some "2025-09-19T06:30:00-03:00");
   mk_event_dict "Daily" (Some "2025-09-20T06:00:00-03:00")
                 (Some "2025-09-20T06:30:00-03:00");
   mk_event_dict "Daily" (Some "2025-09-21T06:00:00-03:00")
                 (Some "2025-09-21T06:30:00-03:00")].

(** A four-day window. *)
Definition week_start : aware :=
  replace_tzinfo (naive_of_fields 2025 9 18 0 0 0) America_Sao_Paulo.
Definition week_end : aware :=
  replace_tzinfo (naive_of_fields 2025 9 21 23 59 59) America_Sao_Paulo.

(** A server that answers with a web page, and a Calendar API with one
    timed and one all-day item. *)
Definition feed_url : string := "https://calendar.example/basic.ics".

Definition html_response : response :=
  mk_response true "text/html; charset=utf-8" (b "<html></html>").

Definition html_server (url : string) : result response := Ok html_response.

Definition no_files (path : string) : result bytes := Raise OtherError.

Definition api_answer : api_response :=
  mk_api_response true
    (Ok [mk_api_item (Some "Review") (Some "2025-09-19T16:00:00-03:00") None
                     (Some "2025-09-19T17:00:00-03:00") None;
         mk_api_item None None (Some "2025-09-19") None (Some "2025-09-20")]).

Definition api_server (tok time_min time_max : string) : result api_response :=
  Ok api_answer.


Definition api_events : list event :=
  [mk_event_dict "Review" (Some "2025-09-19T16:00:00-03:00")
                 (Some "2025-09-19T17:00:00-03:00");
   mk_event_dict placeholder (Some "2025-09-19") (Some "2025-09-20")].

(** A feed whose first line is a continuation with two blanks. *)
Definition orphan_feed : bytes := b "  A:1".

(** A folded description, a corrupt numeric line, a bare number. *)
Definition folded_feed : bytes :=
  b "BEGIN:VEVENT" ++ CRLF
  ++ b "DESCRIPTION:one" ++ CRLF ++ b "  two" ++ CRLF ++ [TAB] ++ b "three" ++ CRLF
  ++ b "02:SOMEVALUE" ++ CRLF
  ++ b "123" ++ CRLF
  ++ b "SUMMARY:02" ++ CRLF
  ++ b "END:VEVENT" ++ CRLF.

End Examples.

(* ================================================================== *)
(** ** Further vocabulary *)
(* ================================================================== *)

Module Vocabulary.
Import PyBytes Sanitizer PyDatetime Exn Calendar Spec.
Open Scope string_scope.
Open Scope list_scope.

(** A physical line: it holds neither a line feed nor a carriage
    return. *)
Definition plain (l : bytes) : Prop := ~ In LF l /\ ~ In CR l.

(** The marker that opens a continuation line. *)
Definition is_marker (m : byte) : Prop := m = SP \/ m = TAB.

(** The continuation line made of a marker and a chunk of text. *)
Definition continuation (mc : byte * bytes) : bytes := fst mc :: snd mc.

(** The bytes of a feed, counted with one separator per line. *)
Definition weight (ls : list bytes) : nat :=
  list_sum (map (fun l => S (List.length l)) ls).

(** The loop of [_parse_ics] passes over a component without a start
    or an end it can normalise. *)
Definition usable (TZ : tzinfo) (comp : vevent) : bool :=
  match normalized_times TZ comp with
  | Some _ => true
  | None => false
  end.

(** The window test of the source on a pair (start, end). *)
Definition in_window (START END : aware) (p : aware * aware) : bool :=
  dt_le (fst p) END && dt_ge (snd p) START.

(** A rule part the allow-list admits, and its text [KEY=V,V]. *)
Definition recognized (kv : string * list string) : bool :=
  in_valid_props (PyStr.upper (fst kv)).

Definition rule_part (kv : string * list string) : string :=
  (fst kv ++ "=" ++ PyStr.join "," (snd kv))%string.

(** A zone whose two views agree: the offset [fromutc] gives for an
    instant is the offset [utcoffset] reads back from the local time. *)
Definition consistent_zone (tz : tzinfo) : Prop :=
  forall u : Z,
    tz_utcoffset tz (u + fst (tz_fromutc tz u))%Z (snd (tz_fromutc tz u))
    = fst (tz_fromutc tz u).

(** The order [events.sort] sorts by. *)
Definition start_le (x y : event) : Prop :=
  String.leb (start_key x) (start_key y) = true.

(** An occurrence as [_parse_ics] builds it: a title, and a start and
    an end that are strings. *)
Definition well_formed (ev : event) : Prop :=
  title ev <> "" /\ start ev <> None /\ end_ ev <> None.

(** The instant a datetime stands for; a naive one is read as UTC. *)
Definition instant_of (v : pydatetime) : Z :=
  match v with
  | Naive w => w
  | Aware a => utc_of a
  end.

(** The events with the start [k], in their order. *)
Definition with_start (k : string) (l : list event) : list event :=
  filter (fun ev => String.eqb (start_key ev) k) l.

End Vocabulary.

Module MoreExamples.
Import PyBytes Sanitizer PyDatetime Exn Calendar Spec Examples.
Open Scope string_scope.
Open Scope list_scope.

(** A VEVENT without a start, then the stand-up. *)
Definition feed_with_startless_event : bytes :=
  b "BEGIN:VEVENT" ++ CRLF
  ++ b "SUMMARY:No start" ++ CRLF
  ++ b "DTEND:20250919T150000Z" ++ CRLF
  ++ b "END:VEVENT" ++ CRLF
  ++ standup_feed.

(** The stand-up with no [DTEND]. *)
Definition standup_open_end : vevent :=
  mk_vevent (summary standup) (dtstart standup) None None.

(** A local file that holds a calendar without events. *)
Definition ics_path : string := "/home/me/calendar.ics".

Definition empty_calendar : bytes :=
  b "BEGIN:VCALENDAR" ++ CRLF ++ b "END:VCALENDAR" ++ CRLF.

Definition one_file (path : string) : result bytes :=
  if String.eqb path ics_path then Ok empty_calendar else Raise OtherError.

Definition no_server (url : string) : result response := Raise OtherError.

(** A feed whose later event comes first. *)
Definition unordered_feed : bytes :=
  b "BEGIN:VEVENT" ++ CRLF
  ++ b "DTSTART:20250919T180000Z" ++ CRLF
  ++ b "SUMMARY:Retro" ++ CRLF
  ++ b "END:VEVENT" ++ CRLF
  ++ standup_feed.

Definition retro_event : event :=
  mk_event_dict "Retro" (Some "2025-09-19T15:00:00-03:00")
                (Some "2025-09-19T16:00:00-03:00").

(** The VEVENT without a start of [feed_with_startless_event]. *)
Definition startless : vevent :=
  mk_vevent (Some "No start") None
            (Some (utc_datetime 2025 9 19 15 0 0)) None.

(** A Calendar API that cannot be reached. *)
Definition api_down (tok time_min time_max : string) : result api_response :=
  Raise OtherError.

End MoreExamples.

(* ================================================================== *)
(** ** Python [str] as code points, and JSON values *)
(* ================================================================== *)

(** The strings of the GitHub and Jira clients come from the
    environment and from decoded JSON: they are sequences of Unicode code
    points, and [strip], slices and iteration work on code points. *)

Module PyUStr.
Open Scope Z_scope.

Definition ustr := list Z.

(** An ASCII literal. *)
Definition u (s : string) : ustr :=
  map (fun c => Z.of_N (Byte.to_N c)) (list_byte_of_string s).

Definition COMMA : Z := 44.

(** The code points [str.isspace] is true of; [str.strip()] removes
    them. *)
Definition is_space (c : Z) : bool :=
  ((9 <=? c) && (c <=? 13)) || ((28 <=? c) && (c <=? 32))
  || (c =? 133) || (c =? 160) || (c =? 5760)
  || ((8192 <=? c) && (c <=? 8202))
  || (c =? 8232) || (c =? 8233) || (c =? 8239) || (c =? 8287)
  || (c =? 12288).

Definition truthy (s : ustr) : bool :=
  match s with [] => false | _ :: _ => true end.

Fixpoint lstrip (s : ustr) : ustr :=
  match s with
  | [] => []
  | c :: s' => if is_space c then lstrip s' else s
  end.

Fixpoint rstrip (s : ustr) : ustr :=
  match s with
  | [] => []
  | c :: s' =>
      match rstrip s' with
      | [] => if is_space c then [] else [c]
      | r => c :: r
      end
  end.

(** [s.strip()] *)
Definition strip (s : ustr) : ustr := rstrip (lstrip s).

(** [s.split(sep)] for a one-character separator *)
Fixpoint split (s : ustr) (sep : Z) : list ustr :=
  match s with
  | [] => [[]]
  | c :: s' =>
      if c =? sep then [] :: split s' sep
      else match split s' sep with
           | [] => [[c]]
           | l :: ls => (c :: l) :: ls
           end
  end.

(** [a == b] *)
Fixpoint eqb (a c : ustr) : bool :=
  match a, c with
  | [], [] => true
  | x :: a', y :: c' => (x =? y) && eqb a' c'
  | _, _ => false
  end.

(** [s.encode()] raises on a lone surrogate, which an environment
    variable holds for a byte that is not UTF-8. *)
Definition is_surrogate (c : Z) : bool := (55296 <=? c) && (c <=? 57343).

Definition encodable (s : ustr) : bool :=
  forallb (fun c => negb (is_surrogate c)) s.

(** [os.getenv(name, "")] *)
Definition or_empty (v : option ustr) : ustr :=
  match v with Some s => s | None => [] end.

(** Truthiness of [os.getenv(name)] *)
Definition is_set (v : option ustr) : bool :=
  match v with Some s => truthy s | None => false end.

End PyUStr.

Module Json.
Import PyUStr Exn.

(** What [response.json()] returns.  A float is kept as its text: the
    clients never compute with it.  A dict is the list of its items, the
    keys distinct. *)
#[warnings="-register-all"] Inductive json :=
| JNull
| JBool (b : bool)
| JInt (z : Z)
| JFloat (text : ustr)
| JStr (s : ustr)
| JList (l : list json)
| JDict (items : list (ustr * json)).

Fixpoint lookup (k : ustr) (items : list (ustr * json)) : option json :=
  match items with
  | [] => None
  | (k', v) :: rest => if eqb k' k then Some v else lookup k rest
  end.

(** [x.get(k, d)]: only a dict has the method. *)
Definition get (x : json) (k : ustr) (d : json) : result json :=
  match x with
  | JDict items =>
      Ok (match lookup k items with Some v => v | None => d end)
  | _ => Raise OtherError
  end.

(** [for item in x]: the elements of a list, the keys of a dict, the
    characters of a string; nothing else can be iterated. *)
Definition iter (x : json) : result (list json) :=
  match x with
  | JList l => Ok l
  | JDict items => Ok (map (fun kv => JStr (fst kv)) items)
  | JStr s => Ok (map (fun c => JStr [c]) s)
  | _ => Raise OtherError
  end.

(** [x[:n]]: of a string or a list. *)
Definition slice_to (x : json) (n : nat) : result json :=
  match x with
  | JStr s => Ok (JStr (firstn n s))
  | JList l => Ok (JList (firstn n l))
  | _ => Raise OtherError
  end.

(** [x == s] for a string [s]: only an equal string is equal. *)
Definition is_str (x : json) (s : ustr) : bool :=
  match x with
  | JStr t => eqb t s
  | _ => false
  end.

(** [x in names] for a list of strings *)
Definition among (x : json) (names : list ustr) : bool :=
  existsb (is_str x) names.

(** An HTTP response: [status_code], and what [.json()] gives or
    raises. *)
Record http_response := mk_http_response {
  status_code : Z;
  body : result json
}.

(** A [for] loop over a list that is changed in place: when the body
    raises, what the earlier iterations did stays. *)
Fixpoint for_each_keep {S X : Type} (step : S -> X -> result S)
         (xs : list X) (st : S) : S * option exn :=
  match xs with
  | [] => (st, None)
  | x :: xs' =>
      match step st x with
      | Ok st' => for_each_keep step xs' st'
      | Raise e => (st, Some e)
      end
  end.

End Json.

(* ================================================================== *)
(** ** The GitHub client: [github_prs] *)
(* ================================================================== *)

Module GitHub.
Import PyUStr Json Exn.
Open Scope Z_scope.

(** [{"title", "url", "state", "repo"}] *)
Record pr := mk_pr {
  pr_title : json;
  pr_url : json;
  pr_state : json;
  pr_repo : ustr
}.

Section Client.

(** [os.getenv("GITHUB_TOKEN")] and [os.getenv("GITHUB_REPOS")]. *)
Variable token : option ustr.
Variable repos_env : option ustr.

(** The status code of the request for the repository, and the answer
    to the search for its pull requests updated since a date; either
    request may raise. *)
Variable repo_check : ustr -> result Z.
Variable search : ustr -> Z -> result http_response.

(** One iteration of [for item in data.get("items", [])]. *)
Definition item_step (repo : ustr) (prs : list pr) (item : json)
  : result (list pr) :=
  t <- get item (u "title") (JStr []) ;;
  l <- get item (u "html_url") (JStr []) ;;
  st <- get item (u "state") (JStr []) ;;
  Ok (prs ++ [mk_pr t l st repo]).

(** The [try] block for one repository; [prs] is changed in place. *)
Definition try_repo (repo : ustr) (start_date : Z) (prs : list pr)
  : list pr * option exn :=
  match repo_check repo with
  | Raise e => (prs, Some e)
  | Ok code =>
      if code =? 404 then (prs, None)
      else if negb (code =? 200) then (prs, None)
      else
        match search repo start_date with
        | Raise e => (prs, Some e)
        | Ok resp =>
            if status_code resp =? 200 then
              match (data <- body resp ;;
                     items <- get data (u "items") (JList []) ;;
                     iter items) with
              | Raise e => (prs, Some e)
              | Ok items => for_each_keep (item_step repo) items prs
              end
            else (prs, None)
        end
  end.

(** One iteration of [for repo in repos]. *)
Definition repo_step (start_date : Z) (prs : list pr) (repo0 : ustr)
  : list pr :=
  let repo := strip repo0 in
  if negb (truthy repo) then prs
  else fst (try_repo repo start_date prs).

Definition github_prs (start_date end_date : Z) : list pr :=
  let repos := split (or_empty repos_env) COMMA in
  if negb (is_set token) then []
  else fold_left (repo_step start_date) repos [].

End Client.

End GitHub.

(* ================================================================== *)
(** ** The Jira client: [jira_issues] and [jira_enhanced_status] *)
(* ================================================================== *)

Module Jira.
Import PyUStr Json Exn.
Open Scope Z_scope.

(** [{"key", "summary", "status", "updated"}] *)
Record issue_row := mk_issue_row {
  row_key : json;
  row_summary : json;
  row_status : json;
  row_updated : json
}.

(** [{"from", "to", "time"}] *)
Record change := mk_change {
  change_from : json;
  change_to : json;
  change_time : json
}.

(** [{"key", "summary", "changes"}] *)
Record movement := mk_movement {
  mv_key : json;
  mv_summary : json;
  mv_changes : list change
}.

(** [{"current_status", "movements"}] *)
Record status_report := mk_status_report {
  current_status : list issue_row;
  movements : list movement
}.

(** ["Em andamento"], ["Em análise"], ["Revisar"] *)
Definition tracked_statuses : list ustr :=
  [u "Em andamento"; u "Em an" ++ [225] ++ u "lise"; u "Revisar"].

(** [issue.get("fields", {}).get(name, "")] *)
Definition field (issue : json) (name : ustr) : result json :=
  fields <- get issue (u "fields") (JDict []) ;;
  get fields name (JStr []).

(** [issue.get("fields", {}).get("status", {}).get("name", "")] *)
Definition status_name_of (issue : json) : result json :=
  fields <- get issue (u "fields") (JDict []) ;;
  st <- get fields (u "status") (JDict []) ;;
  get st (u "name") (JStr []).

Section Client.

(** [JIRA_BASE_URL], [JIRA_EMAIL], [JIRA_TOKEN]. *)
Variable base_url : option ustr.
Variable email : option ustr.
Variable token : option ustr.

(** The requests: the search over a range of dates, the search for the
    open issues of the user, the search for the issues updated on a day,
    and the changelog of an issue. *)
Variable search_range : Z -> Z -> result http_response.
Variable search_status : result http_response.
Variable search_moved : Z -> result http_response.
Variable changelog : json -> result http_response.

(** [target_date.strftime("%Y-%m-%d")] *)
Variable ymd : Z -> ustr.

(** [all([base_url, email, token])] *)
Definition configured : bool :=
  is_set base_url && is_set email && is_set token.

(** [f"{email}:{token}".encode()] succeeds.  When it does not, it
    raises [UnicodeEncodeError], which is a [ValueError]. *)
Definition credentials_encodable : bool :=
  encodable (or_empty email ++ u ":" ++ or_empty token).

(** One iteration of the loop of [jira_issues]. *)
Definition legacy_step (issues : list issue_row) (issue : json)
  : result (list issue_row) :=
  k <- get issue (u "key") (JStr []) ;;
  sm <- field issue (u "summary") ;;
  st <- status_name_of issue ;;
  up <- field issue (u "updated") ;;
  Ok (issues ++ [mk_issue_row k sm st up]).

(** The [try] block of [jira_issues]: [Ok (Some issues)] when it
    returns the issues, [Ok None] when it only prints. *)
Definition legacy_attempt (start_date end_date : Z)
  : result (option (list issue_row)) :=
  resp <- search_range start_date end_date ;;
  if status_code resp =? 200 then
    data <- body resp ;;
    xs <- get data (u "issues") (JList []) ;;
    items <- iter xs ;;
    issues <- for_each legacy_step items [] ;;
    Ok (Some issues)
  else Ok None.

Definition jira_issues (start_date end_date : Z) : result (list issue_row) :=
  if negb configured then Ok []
  else if negb credentials_encodable then Raise ValueError
  else match legacy_attempt start_date end_date with
       | Ok (Some issues) => Ok issues
       | _ => Ok []
       end.

(** One iteration of the first loop of [jira_enhanced_status]. *)
Definition status_step (rows : list issue_row) (issue : json)
  : result (list issue_row) :=
  status_name <- status_name_of issue ;;
  if among status_name tracked_statuses then
    k <- get issue (u "key") (JStr []) ;;
    sm <- field issue (u "summary") ;;
    up <- field issue (u "updated") ;;
    Ok (rows ++ [mk_issue_row k sm status_name up])
  else Ok rows.

(** Part 1: the issues in progress or in review. *)
Definition status_part : list issue_row * option exn :=
  match search_status with
  | Raise e => ([], Some e)
  | Ok resp =>
      if status_code resp =? 200 then
        match (data <- body resp ;;
               xs <- get data (u "issues") (JList []) ;;
               iter xs) with
        | Raise e => ([], Some e)
        | Ok items => for_each_keep status_step items []
        end
      else ([], None)
  end.

(** One iteration of [for item in history.get("items", [])]. *)
Definition change_step (history : json) (changes : list change) (item : json)
  : result (list change) :=
  f <- get item (u "field") JNull ;;
  if is_str f (u "status") then
    fr <- get item (u "fromString") (JStr []) ;;
    to <- get item (u "toString") (JStr []) ;;
    tm <- get history (u "created") (JStr []) ;;
    Ok (changes ++ [mk_change fr to tm])
  else Ok changes.

(** One iteration of [for history in history_data.get("values", [])]. *)
Definition history_step (target_date : Z) (changes : list change)
           (history : json) : result (list change) :=
  created <- get history (u "created") (JStr []) ;;
  change_date <- slice_to created 10 ;;
  if is_str change_date (ymd target_date) then
    xs <- get history (u "items") (JList []) ;;
    items <- iter xs ;;
    for_each (change_step history) items changes
  else Ok changes.

(** One iteration of the second loop: the status changes of one issue
    on the target date. *)
Definition moved_step (target_date : Z) (moves : list movement)
           (issue : json) : result (list movement) :=
  issue_key <- get issue (u "key") (JStr []) ;;
  history_response <- changelog issue_key ;;
  status_changes <-
    (if status_code history_response =? 200 then
       history_data <- body history_response ;;
       xs <- get history_data (u "values") (JList []) ;;
       histories <- iter xs ;;
       for_each (history_step target_date) histories []
     else Ok []) ;;
  match status_changes with
  | [] => Ok moves
  | _ :: _ =>
      k <- get issue (u "key") (JStr []) ;;
      sm <- field issue (u "summary") ;;
      Ok (moves ++ [mk_movement k sm status_changes])
  end.

(** Part 2: the movements of the target date. *)
Definition moved_part (target_date : Z) : list movement * option exn :=
  match search_moved target_date with
  | Raise e => ([], Some e)
  | Ok resp =>
      if status_code resp =? 200 then
        match (data <- body resp ;;
               xs <- get data (u "issues") (JList []) ;;
               iter xs) with
        | Raise e => ([], Some e)
        | Ok items => for_each_keep (moved_step target_date) items []
        end
      else ([], None)
  end.

Definition jira_enhanced_status (target_date : Z) : result status_report :=
  if negb configured then Ok (mk_status_report [] [])
  else if negb credentials_encodable then Raise ValueError
  else
    let '(rows, raised) := status_part in
    match raised with
    | Some _ => Ok (mk_status_report rows [])
    | None => Ok (mk_status_report rows (fst (moved_part target_date)))
    end.

End Client.

End Jira.

Module ClientWords.
Import PyUStr Json Exn GitHub Jira.

(** A JSON object. *)
Definition is_dict (x : json) : bool :=
  match x with JDict _ => true | _ => false end.

(** What [x.get(k, d)] gives for an object. *)
Definition get_or (x : json) (k : ustr) (d : json) : json :=
  match get x k d with Ok v => v | Raise _ => d end.

(** The pull request read off one item of the search answer. *)
Definition pr_of (repo : ustr) (item : json) : pr :=
  mk_pr (get_or item (u "title") (JStr []))
        (get_or item (u "html_url") (JStr []))
        (get_or item (u "state") (JStr []))
        repo.

(** The time of a change is a string that begins with the date. *)
Definition dated (day : ustr) (c : change) : Prop :=
  exists s, change_time c = JStr s /\ firstn 10 s = day.

(** A repository that answers with one pull request, one that is
    unknown, one whose answer has a malformed item. *)
Definition check_example (repo : ustr) : result Z :=
  if eqb repo (u "org/api") then Ok 200%Z
  else if eqb repo (u "org/web") then Ok 200%Z
  else Ok 404%Z.

Definition one_pr (n : string) : json :=
  JDict [(u "title", JStr (u n)); (u "state", JStr (u "open"))].

Definition search_example (repo : ustr) (since : Z) : result http_response :=
  if eqb repo (u "org/api") then
    Ok (mk_http_response 200 (Ok (JDict [(u "items", JList [one_pr "Fix"])])))
  else
    Ok (mk_http_response 200
          (Ok (JDict [(u "items",
                       JList [one_pr "Add"; JNull; one_pr "Lost"])]))).

(** A Jira with two issues, one in review. *)
Definition issue_example (k st : string) : json :=
  JDict [(u "key", JStr (u k));
         (u "fields", JDict [(u "summary", JStr (u "Do it"));
                             (u "status", JDict [(u "name", JStr (u st))])])].

Definition issues_answer : http_response :=
  mk_http_response 200
    (Ok (JDict [(u "issues", JList [issue_example "AB-1" "Revisar";
                                    issue_example "AB-2" "Done"])])).

Definition changelog_example (key : json) : result http_response :=
  Ok (mk_http_response 200
        (Ok (JDict [(u "values",
                     JList [JDict [(u "created", JStr (u "2025-09-19T10:30:00.000-0300"));
                                   (u "items",
                                    JList [JDict [(u "field", JStr (u "status"));
                                                  (u "fromString", JStr (u "To Do"));
                                                  (u "toString", JStr (u "Revisar"))]])];
                            JDict [(u "created", JStr (u "2025-09-18T09:00:00.000-0300"));
                                   (u "items",
                                    JList [JDict [(u "field", JStr (u "status"))]])]])]))).

(** [strftime("%Y-%m-%d")] of a day number. *)
Definition ymd_of_day (day : Z) : ustr :=
  let '(y, m, d) := PyDatetime.civil_from_days day in
  u (PyDatetime.dec 4 y ++ "-" ++ PyDatetime.dec 2 m ++ "-"
     ++ PyDatetime.dec 2 d)%string.

Definition jira_url : option ustr := Some (u "https://jira.example").
Definition jira_email : option ustr := Some (u "me@example.org").
Definition jira_token : option ustr := Some (u "secret").

(** A token with a lone surrogate, as a stray byte in the environment
    gives. *)
Definition broken_token : option ustr := Some (u "sec" ++ [56575%Z]).

Definition search_range_example (since until : Z) : result http_response :=
  Ok issues_answer.

Definition search_moved_example (day : Z) : result http_response :=
  Ok issues_answer.

Definition rows_example : list issue_row :=
  [mk_issue_row (JStr (u "AB-1")) (JStr (u "Do it")) (JStr (u "Revisar"))
                (JStr []);
   mk_issue_row (JStr (u "AB-2")) (JStr (u "Do it")) (JStr (u "Done"))
                (JStr [])].

Definition change_example : change :=
  mk_change (JStr (u "To Do")) (JStr (u "Revisar"))
            (JStr (u "2025-09-19T10:30:00.000-0300")).

Definition report_example : status_report :=
  mk_status_report
    [mk_issue_row (JStr (u "AB-1")) (JStr (u "Do it")) (JStr (u "Revisar"))
                  (JStr [])]
    [mk_movement (JStr (u "AB-1")) (JStr (u "Do it")) [change_example];
     mk_movement (JStr (u "AB-2")) (JStr (u "Do it")) [change_example]].

End ClientWords.

(* ================================================================== *)
(** ** Facts about the [bytes] methods *)
(* ================================================================== *)

Module PyBytesFacts.
Import PyBytes.

Lemma eqb_true_iff (c d : byte) : Byte.eqb c d = true <-> c = d.
Proof.
  split; [apply byte_dec_bl | apply byte_dec_lb].
Qed.

Lemma eqb_refl (c : byte) : Byte.eqb c c = true.
Proof. now apply eqb_true_iff. Qed.

Lemma eqb_false_iff (c d : byte) : Byte.eqb c d = false <-> c <> d.
Proof.
  split.
  - intros H E. subst. rewrite eqb_refl in H. discriminate.
  - intros H. destruct (Byte.eqb c d) eqn:E; [|reflexivity].
    apply eqb_true_iff in E. contradiction.
Qed.

Lemma contains_In (s : bytes) (c : byte) : contains s c = true <-> In c s.
Proof.
  induction s as [|d s IH]; simpl.
  - split; [discriminate | tauto].
  - rewrite orb_true_iff, IH, eqb_true_iff. split; intros [H|H]; auto.
Qed.

Lemma contains_false_iff (s : bytes) (c : byte) :
  contains s c = false <-> ~ In c s.
Proof.
  rewrite <- contains_In. destruct (contains s c); split; congruence.
Qed.

(** *** [split] *)

Lemma split_not_nil (s : bytes) (sep : byte) : split s sep <> [].
Proof.
  destruct s as [|c s]; simpl; [discriminate|].
  destruct (Byte.eqb c sep); [discriminate|].
  destruct (split s sep); discriminate.
Qed.

Lemma split_no_sep (s : bytes) (sep : byte) :
  Forall (fun l => ~ In sep l) (split s sep).
Proof.
  induction s as [|c s IH]; simpl.
  - constructor; [tauto | constructor].
  - destruct (Byte.eqb c sep) eqn:E.
    + constructor; [tauto | exact IH].
    + apply eqb_false_iff in E.
      destruct (split s sep) as [|l ls].
      * constructor; [|constructor]. simpl. intros [H|[]]. congruence.
      * inversion IH; subst. constructor; [|assumption].
        simpl. intros [H|H]; [congruence | contradiction].
Qed.

Lemma split_no_sep_line (l : bytes) (sep : byte) :
  ~ In sep l -> split l sep = [l].
Proof.
  induction l as [|c l IH]; simpl; intros H; [reflexivity|].
  destruct (Byte.eqb c sep) eqn:E.
  - apply eqb_true_iff in E. subst. exfalso. auto.
  - rewrite IH by tauto. reflexivity.
Qed.

Lemma split_app_sep (l rest : bytes) (sep : byte) :
  ~ In sep l -> split (l ++ sep :: rest) sep = l :: split rest sep.
Proof.
  induction l as [|c l IH]; simpl; intros H.
  - rewrite eqb_refl. reflexivity.
  - destruct (Byte.eqb c sep) eqn:E.
    + apply eqb_true_iff in E. subst. exfalso. auto.
    + rewrite IH by tauto. reflexivity.
Qed.

(** Joining lines that hold no separator and splitting again gives the
    lines back; of no line at all it gives the one empty line. *)
Lemma split_join (ls : list bytes) (sep : byte) :
  ls <> [] -> Forall (fun l => ~ In sep l) ls ->
  split (join [sep] ls) sep = ls.
Proof.
  induction ls as [|l ls IH]; intros Hne Hall; [congruence|].
  inversion Hall as [|? ? Hl Hls]; subst.
  destruct ls as [|l' ls].
  - simpl. now apply split_no_sep_line.
  - change (join [sep] (l :: l' :: ls))
      with (l ++ sep :: join [sep] (l' :: ls)).
    rewrite split_app_sep by assumption.
    rewrite IH; [reflexivity | discriminate | assumption].
Qed.

(** *** [replace] *)

Lemma startswith_nil (s : bytes) : startswith s [] = true.
Proof. destruct s; reflexivity. Qed.

Lemma replace1_map (c d : byte) (s : bytes) :
  replace s [c] [d] = map (fun x => if Byte.eqb c x then d else x) s.
Proof.
  unfold replace. induction s as [|x s IH]; simpl; [reflexivity|].
  rewrite startswith_nil, andb_true_r.
  destruct (Byte.eqb c x); simpl; now rewrite IH.
Qed.

Lemma replace_absent_first (c : byte) (old' new s : bytes) :
  ~ In c s -> replace s (c :: old') new = s.
Proof.
  unfold replace. induction s as [|x s IH]; simpl; intros H; [reflexivity|].
  destruct (Byte.eqb c x) eqn:E.
  - apply eqb_true_iff in E. subst. exfalso. auto.
  - simpl. rewrite IH by tauto. reflexivity.
Qed.

(** *** [strip] *)

Lemma lstrip_nil_iff (s : bytes) :
  lstrip s = [] <-> forallb is_space s = true.
Proof.
  induction s as [|c s IH]; simpl; [tauto|].
  destruct (is_space c); simpl; [exact IH|].
  split; discriminate.
Qed.

Lemma rstrip_nil_iff (s : bytes) :
  rstrip s = [] <-> forallb is_space s = true.
Proof.
  induction s as [|c s IH]; simpl; [tauto|].
  destruct (rstrip s) as [|r rs] eqn:E.
  - destruct (is_space c); simpl.
    + split; intros _; [now apply IH | reflexivity].
    + split; discriminate.
  - split; [discriminate|]. intros H. apply andb_true_iff in H.
    destruct H as [_ H]. apply IH in H. discriminate.
Qed.

Lemma lstrip_decomp (s : bytes) :
  exists pre, s = pre ++ lstrip s /\ forallb is_space pre = true.
Proof.
  induction s as [|c s [pre [E H]]]; simpl.
  - exists []. auto.
  - destruct (is_space c) eqn:Ec.
    + exists (c :: pre). simpl. rewrite Ec, H, <- E. split; reflexivity.
    + exists []. split; reflexivity.
Qed.

Lemma rstrip_decomp (s : bytes) :
  exists post, s = rstrip s ++ post /\ forallb is_space post = true.
Proof.
  induction s as [|c s [post [E H]]]; simpl.
  - exists []. auto.
  - destruct (rstrip s) as [|r rs] eqn:Er.
    + destruct (is_space c) eqn:Ec.
      * exists (c :: post). simpl in *.
        split; [congruence | now rewrite Ec].
      * exists post. simpl in *. split; [congruence | assumption].
    + exists post. split; [|assumption]. simpl. f_equal. exact E.
Qed.

Lemma lstrip_blank_app (pre s : bytes) :
  forallb is_space pre = true -> lstrip (pre ++ s) = lstrip s.
Proof.
  induction pre as [|c pre IH]; simpl; intros H; [reflexivity|].
  apply andb_true_iff in H. destruct H as [Hc H]. rewrite Hc. auto.
Qed.

Lemma rstrip_app_blank (s post : bytes) :
  forallb is_space post = true -> rstrip (s ++ post) = rstrip s.
Proof.
  intros H. induction s as [|c s IH]; simpl.
  - now apply rstrip_nil_iff.
  - rewrite IH. reflexivity.
Qed.

Lemma digit_not_space (c : byte) : is_digit c = true -> is_space c = false.
Proof. destruct c; simpl; congruence. Qed.

Lemma digit_not_colon (c : byte) : is_digit c = true -> c <> COLON.
Proof. intros H E. subst. discriminate. Qed.

Lemma space_not_colon (c : byte) : is_space c = true -> c <> COLON.
Proof. intros H E. subst. discriminate. Qed.

Lemma rstrip_digits (d : bytes) : forallb is_digit d = true -> rstrip d = d.
Proof.
  induction d as [|c d IH]; simpl; intros H; [reflexivity|].
  apply andb_true_iff in H. destruct H as [Hc H].
  rewrite IH by assumption.
  destruct d; [|reflexivity]. now rewrite (digit_not_space _ Hc).
Qed.

Lemma strip_blank_iff (s : bytes) :
  strip s = [] <-> forallb is_space s = true.
Proof.
  unfold strip. rewrite rstrip_nil_iff.
  destruct (lstrip_decomp s) as [pre [E H]].
  rewrite E at 2. rewrite forallb_app, H. simpl. tauto.
Qed.

(** Blanks, digits, blanks: the strip is the digits. *)
Lemma strip_padded_digits (pre d post : bytes) :
  forallb is_space pre = true -> forallb is_digit d = true -> d <> [] ->
  forallb is_space post = true ->
  strip (pre ++ d ++ post) = d.
Proof.
  intros Hpre Hd Hne Hpost. unfold strip.
  rewrite lstrip_blank_app by assumption.
  destruct d as [|c d]; [congruence|].
  simpl in Hd. apply andb_true_iff in Hd. destruct Hd as [Hc Hd].
  change ((c :: d) ++ post) with (c :: (d ++ post)).
  cbn [lstrip]. rewrite (digit_not_space _ Hc).
  change (c :: d ++ post) with ((c :: d) ++ post).
  rewrite rstrip_app_blank by assumption.
  apply rstrip_digits. simpl. now rewrite Hc, Hd.
Qed.

(** A bytes object is blanks, its strip, blanks. *)
Lemma strip_decomp (s : bytes) :
  exists pre post,
    s = pre ++ strip s ++ post
    /\ forallb is_space pre = true /\ forallb is_space post = true.
Proof.
  destruct (lstrip_decomp s) as [pre [E H]].
  destruct (rstrip_decomp (lstrip s)) as [post [E' H']].
  exists pre, post. unfold strip. rewrite <- E', <- E. auto.
Qed.

(** *** [split(sep, 1)[0]] *)

Lemma split1_head_no_sep (s : bytes) (sep : byte) :
  ~ In sep (split1_head s sep).
Proof.
  induction s as [|c s IH]; simpl; [tauto|].
  destruct (Byte.eqb c sep) eqn:E; simpl; [tauto|].
  apply eqb_false_iff in E. intros [H|H]; auto.
Qed.

Lemma split1_head_app (name value : bytes) (sep : byte) :
  ~ In sep name -> split1_head (name ++ sep :: value) sep = name.
Proof.
  induction name as [|c name IH]; simpl; intros H.
  - now rewrite eqb_refl.
  - destruct (Byte.eqb c sep) eqn:E.
    + apply eqb_true_iff in E. subst. exfalso. auto.
    + rewrite IH by tauto. reflexivity.
Qed.

Lemma contains_split1 (s : bytes) (sep : byte) :
  contains s sep = true ->
  exists value, s = split1_head s sep ++ sep :: value.
Proof.
  induction s as [|c s IH]; simpl; [discriminate|].
  destruct (Byte.eqb c sep) eqn:E; simpl.
  - intros _. apply eqb_true_iff in E. subst. now exists s.
  - intros H. destruct (IH H) as [v Hv]. exists v. now rewrite <- Hv.
Qed.

End PyBytesFacts.

(* ================================================================== *)
(** ** Facts about the sanitizer *)
(* ================================================================== *)

Module SanitizerFacts.
Import PyBytes Sanitizer Spec PyBytesFacts.

Lemma forallb_Forall {A : Type} (f : A -> bool) (l : list A) :
  forallb f l = true <-> Forall (fun x => f x = true) l.
Proof.
  rewrite forallb_forall, Forall_forall. tauto.
Qed.

Lemma truthy_true_iff (s : bytes) : truthy s = true <-> s <> [].
Proof. destruct s; simpl; split; congruence. Qed.

Lemma truthy_false_iff (s : bytes) : truthy s = false <-> s = [].
Proof. destruct s; simpl; split; congruence. Qed.

(** *** The filter loop *)

Lemma filter_step_dropped (acc : list bytes) (line : bytes) :
  filter_step acc line = if dropped line then acc else acc ++ [line].
Proof.
  unfold filter_step, dropped.
  destruct (truthy (strip line)); simpl; [|reflexivity].
  destruct (contains line COLON); simpl; [|reflexivity].
  destruct (isdigit (strip (split1_head line COLON))); reflexivity.
Qed.

Lemma filter_loop (ls acc : list bytes) :
  fold_left filter_step ls acc
  = acc ++ filter (fun l => negb (dropped l)) ls.
Proof.
  revert acc. induction ls as [|l ls IH]; intros acc; simpl.
  - now rewrite app_nil_r.
  - rewrite IH, filter_step_dropped.
    destruct (dropped l); simpl; [reflexivity|].
    now rewrite <- app_assoc.
Qed.

Lemma sanitized_lines_filter (raw : bytes) :
  sanitized_lines raw
  = filter (fun l => negb (dropped l)) (unfolded_lines raw).
Proof. unfold sanitized_lines. now rewrite filter_loop. Qed.

Lemma blank_iff (l : bytes) : truthy (strip l) = false <-> Blank l.
Proof.
  rewrite truthy_false_iff, strip_blank_iff. apply forallb_Forall.
Qed.

Lemma Forall_app_intro {A : Type} (P : A -> Prop) (l1 l2 : list A) :
  Forall P l1 -> Forall P l2 -> Forall P (l1 ++ l2).
Proof. intros. apply Forall_app. auto. Qed.

Lemma digit_name_iff (l : bytes) :
  contains l COLON && isdigit (strip (split1_head l COLON)) = true
  <-> DigitOnlyName l.
Proof.
  split.
  - intros H. apply andb_true_iff in H. destruct H as [Hc Hd].
    destruct (contains_split1 _ _ Hc) as [value Hl].
    destruct (strip_decomp (split1_head l COLON)) as [pre [post [E [Hpre Hpost]]]].
    unfold isdigit in Hd. apply andb_true_iff in Hd. destruct Hd as [Hne Hd].
    exists pre, (strip (split1_head l COLON)), post, value.
    repeat split.
    + rewrite Hl at 1. rewrite E at 1. now rewrite <- !app_assoc.
    + now apply forallb_Forall.
    + now apply forallb_Forall.
    + now apply truthy_true_iff.
    + now apply forallb_Forall.
  - intros [pre [d [post [value [E [Hpre [Hd [Hne Hpost]]]]]]]].
    unfold Blank, Digits in *.
    assert (Hname : ~ In COLON (pre ++ d ++ post)).
    { intros Hin. apply in_app_or in Hin. destruct Hin as [Hin|Hin].
      - rewrite Forall_forall in Hpre. now apply (space_not_colon _ (Hpre _ Hin)).
      - apply in_app_or in Hin. destruct Hin as [Hin|Hin].
        + rewrite Forall_forall in Hd. now apply (digit_not_colon _ (Hd _ Hin)).
        + rewrite Forall_forall in Hpost.
          now apply (space_not_colon _ (Hpost _ Hin)). }
    assert (El : l = (pre ++ d ++ post) ++ COLON :: value)
      by (now rewrite E, <- !app_assoc).
    apply andb_true_iff. split.
    + apply contains_In. rewrite El. apply in_or_app. right. now left.
    + rewrite El, split1_head_app by assumption.
      rewrite strip_padded_digits; try (now apply forallb_Forall); auto.
      unfold isdigit. apply andb_true_iff. split.
      * now apply truthy_true_iff.
      * now apply forallb_Forall.
Qed.

(** The loop passes over exactly the blank lines and the lines with a
    digit-only name. *)
Lemma dropped_iff (l : bytes) :
  dropped l = true <-> Blank l \/ DigitOnlyName l.
Proof.
  unfold dropped. rewrite orb_true_iff, negb_true_iff, blank_iff.
  now rewrite digit_name_iff.
Qed.

(** *** The unfolding loop *)

Lemma is_continuation_cons (c : byte) (s : bytes) :
  is_continuation (c :: s) = Byte.eqb SP c || Byte.eqb TAB c.
Proof.
  unfold is_continuation. simpl. now rewrite startswith_nil, !andb_true_r.
Qed.

Lemma is_continuation_truthy (l : bytes) :
  is_continuation l = true -> truthy l = true.
Proof. destruct l; [discriminate | reflexivity]. Qed.

Lemma clean_head_app (cur rest : bytes) :
  cur <> [] -> clean_head cur -> clean_head (cur ++ rest).
Proof.
  destruct cur as [|c cur]; [congruence|]. intros _.
  unfold clean_head. simpl. now rewrite !is_continuation_cons.
Qed.

(** A property of lines that holds of the empty line, of tails and of
    concatenations goes from the physical lines to the logical ones. *)
Section Carried.
Variable P : bytes -> Prop.
Hypothesis P_app : forall a c, P a -> P c -> P (a ++ c).
Hypothesis P_tl : forall a, P a -> P (from1 a).

Lemma unfold_step_carried (st : unfold_state) (line : bytes) :
  Forall P (fst st) -> P (snd st) -> P line ->
  Forall P (fst (unfold_step st line)) /\ P (snd (unfold_step st line)).
Proof.
  destruct st as [u cur]. simpl. intros Hu Hcur Hl.
  destruct (is_continuation line); simpl.
  - auto.
  - split; [|assumption]. destruct (truthy cur); [|assumption].
    apply Forall_app_intro; auto.
Qed.

Lemma unfold_loop_carried (lines : list bytes) (st : unfold_state) :
  Forall P lines -> Forall P (fst st) -> P (snd st) ->
  Forall P (fst (fold_left unfold_step lines st))
  /\ P (snd (fold_left unfold_step lines st)).
Proof.
  revert st. induction lines as [|l ls IH]; intros st Hls Hu Hcur; simpl.
  - auto.
  - inversion Hls as [|? ? Hl Hls']; subst.
    destruct (unfold_step_carried st l Hu Hcur Hl) as [Hu' Hcur'].
    now apply IH.
Qed.

Lemma unfold_lines_carried (txt : bytes) :
  P [] -> Forall P (split txt LF) -> Forall P (unfold_lines txt).
Proof.
  intros Hnil Hls. unfold unfold_lines.
  destruct (unfold_loop_carried (split txt LF) ([], [])) as [H1 H2];
    simpl; auto.
  destruct (fold_left unfold_step (split txt LF) ([], [])) as [u cur].
  simpl in *. destruct (truthy cur); [|assumption].
  apply Forall_app_intro; auto.
Qed.
End Carried.

Lemma not_in_tl (c : byte) (a : bytes) : ~ In c a -> ~ In c (from1 a).
Proof. destruct a; simpl; tauto. Qed.

Lemma not_in_app (c : byte) (a d : bytes) :
  ~ In c a -> ~ In c d -> ~ In c (a ++ d).
Proof. intros Ha Hd H. apply in_app_or in H. tauto. Qed.

(** No logical line holds a line feed. *)
Lemma unfolded_no_LF (raw : bytes) :
  Forall (fun l => ~ In LF l) (unfolded_lines raw).
Proof.
  apply unfold_lines_carried.
  - apply not_in_app.
  - apply not_in_tl.
  - simpl. tauto.
  - apply split_no_sep.
Qed.

Lemma normalize_no_CR (raw : bytes) : ~ In CR (normalize_newlines raw).
Proof.
  unfold normalize_newlines. rewrite replace1_map, in_map_iff.
  intros [x [Hx _]]. destruct (Byte.eqb CR x) eqn:E; [discriminate|].
  apply eqb_false_iff in E. congruence.
Qed.

Lemma split_carries_absent (s : bytes) (c sep : byte) :
  ~ In c s -> Forall (fun l => ~ In c l) (split s sep).
Proof.
  induction s as [|x s IH]; simpl; intros H.
  - constructor; [tauto | constructor].
  - assert (Hs : ~ In c s) by tauto. specialize (IH Hs).
    destruct (Byte.eqb x sep).
    + constructor; [simpl; tauto | assumption].
    + destruct (split s sep) as [|l ls].
      * constructor; [simpl; tauto | constructor].
      * inversion IH; subst. constructor; [simpl; tauto | assumption].
Qed.

(** No logical line holds a carriage return. *)
Lemma unfolded_no_CR (raw : bytes) :
  Forall (fun l => ~ In CR l) (unfolded_lines raw).
Proof.
  apply unfold_lines_carried.
  - apply not_in_app.
  - apply not_in_tl.
  - simpl. tauto.
  - apply split_carries_absent, normalize_no_CR.
Qed.

(** No logical line is empty. *)
Lemma unfold_loop_truthy (lines : list bytes) (st : unfold_state) :
  Forall (fun l => l <> []) (fst st) ->
  Forall (fun l => l <> []) (fst (fold_left unfold_step lines st)).
Proof.
  revert st. induction lines as [|l ls IH]; intros [u cur] Hu; simpl.
  - assumption.
  - apply IH. destruct (is_continuation l); simpl; [assumption|].
    destruct (truthy cur) eqn:E; [|assumption].
    apply Forall_app_intro; [assumption|].
    constructor; [now apply truthy_true_iff | constructor].
Qed.

Lemma unfolded_truthy (raw : bytes) :
  Forall (fun l => l <> []) (unfolded_lines raw).
Proof.
  unfold unfolded_lines, unfold_lines.
  pose proof (unfold_loop_truthy (split (normalize_newlines raw) LF)
                ([], []) (Forall_nil _)) as H.
  destruct (fold_left unfold_step _ _) as [u cur]. simpl in *.
  destruct (truthy cur) eqn:E; [|assumption].
  apply Forall_app_intro; [assumption|].
  constructor; [now apply truthy_true_iff | constructor].
Qed.

(** In a well-folded feed no logical line keeps a marker at its head. *)
Lemma unfold_loop_clean (lines : list bytes) (pe : bool) (st : unfold_state) :
  well_folded_from pe lines = true ->
  Forall clean_head (fst st) -> clean_head (snd st) ->
  (pe = false -> snd st <> []) ->
  Forall clean_head (fst (fold_left unfold_step lines st))
  /\ clean_head (snd (fold_left unfold_step lines st)).
Proof.
  revert pe st.
  induction lines as [|l ls IH]; intros pe [u cur] Hwf Hu Hcur Hpe; simpl.
  - auto.
  - simpl in Hwf. apply andb_true_iff in Hwf. destruct Hwf as [Hl Hwf].
    apply (IH _ _ Hwf); simpl in *.
    + destruct (is_continuation l); simpl; [assumption|].
      destruct (truthy cur); [|assumption].
      apply Forall_app_intro; auto.
    + destruct (is_continuation l) eqn:El; simpl; [|exact El].
      destruct pe; [discriminate|]. apply clean_head_app; auto.
    + intros Hpe'. apply negb_false_iff in Hpe'.
      destruct (is_continuation l) eqn:El; simpl.
      * destruct pe; [discriminate|].
        intros E. apply app_eq_nil in E. destruct E as [E _].
        now apply Hpe.
      * now apply truthy_true_iff.
Qed.

Lemma unfolded_clean (raw : bytes) :
  well_folded raw = true -> Forall clean_head (unfolded_lines raw).
Proof.
  intros Hwf. unfold unfolded_lines, unfold_lines.
  destruct (unfold_loop_clean (split (normalize_newlines raw) LF) true
              ([], []) Hwf) as [H1 H2]; simpl; auto; try reflexivity.
  - discriminate.
  - destruct (fold_left unfold_step _ _) as [u cur]. simpl in *.
    destruct (truthy cur); [|assumption].
    apply Forall_app_intro; auto.
Qed.

(** *** Sanitizing clean lines again *)

Lemma unfold_loop_settled (ls : list bytes) (u : list bytes) (cur : bytes) :
  Forall (fun l => l <> [] /\ clean_head l) ls ->
  unfold_finish (fold_left unfold_step ls (u, cur))
  = (if truthy cur then u ++ [cur] else u) ++ ls.
Proof.
  revert u cur. induction ls as [|l ls IH]; intros u cur Hls.
  - simpl. now rewrite app_nil_r.
  - inversion Hls as [|? ? [Hne Hcl] Hls']; subst.
    cbn [fold_left]. unfold unfold_step at 2. rewrite Hcl.
    rewrite IH by assumption.
    apply truthy_true_iff in Hne. rewrite Hne.
    now rewrite <- app_assoc.
Qed.

Lemma filter_all {A : Type} (f : A -> bool) (l : list A) :
  Forall (fun x => f x = true) l -> filter f l = l.
Proof.
  induction 1 as [|x l Hx _ IH]; simpl; [reflexivity|].
  now rewrite Hx, IH.
Qed.

Lemma join_absent (c sep : byte) (ls : list bytes) :
  c <> sep -> Forall (fun l => ~ In c l) ls -> ~ In c (join [sep] ls).
Proof.
  intros Hc. induction 1 as [|l ls Hl _ IH]; [simpl; tauto|].
  destruct ls as [|l' ls]; [exact Hl|].
  change (join [sep] (l :: l' :: ls)) with (l ++ sep :: join [sep] (l' :: ls)).
  apply not_in_app; [assumption|]. simpl. intros [E|E]; [congruence | auto].
Qed.

Lemma sanitized_lines_settled (ls : list bytes) :
  Forall settled ls -> sanitized_lines (join [LF] ls) = ls.
Proof.
  intros Hls. destruct ls as [|l0 ls0]; [reflexivity|].
  remember (l0 :: ls0) as ls eqn:Els.
  assert (Hne : ls <> []) by (subst; discriminate).
  assert (HCR : ~ In CR (join [LF] ls)).
  { apply join_absent; [discriminate|].
    eapply Forall_impl; [|exact Hls]. unfold settled. tauto. }
  rewrite sanitized_lines_filter. unfold unfolded_lines, normalize_newlines.
  rewrite (replace_absent_first CR [LF] [LF] _ HCR).
  rewrite (replace_absent_first CR [] [LF] _ HCR).
  unfold unfold_lines. rewrite split_join; [|assumption|].
  - rewrite unfold_loop_settled.
    + simpl. apply filter_all.
      eapply Forall_impl; [|exact Hls]. unfold settled.
      intros l [_ [_ [_ [_ H]]]]. now rewrite H.
    + eapply Forall_impl; [|exact Hls]. unfold settled. tauto.
  - eapply Forall_impl; [|exact Hls]. unfold settled. tauto.
Qed.

Lemma Forall_filter {A : Type} (P : A -> Prop) (f : A -> bool) (l : list A) :
  Forall P l -> Forall (fun x => P x /\ f x = true) (filter f l).
Proof.
  induction 1 as [|x l Hx _ IH]; simpl; [constructor|].
  destruct (f x) eqn:E; [constructor; auto | assumption].
Qed.

(** Sanitizing again changes nothing when no surviving line begins
    with a space or a TAB. *)
Lemma sanitize_again (raw : bytes) :
  Forall clean_head (sanitized_lines raw) ->
  _sanitize_ics (_sanitize_ics raw) = _sanitize_ics raw.
Proof.
  intros Hclean. unfold _sanitize_ics at 1 2.
  rewrite sanitized_lines_settled; [reflexivity|].
  rewrite sanitized_lines_filter in *.
  pose proof (unfolded_no_LF raw) as HLF.
  pose proof (unfolded_no_CR raw) as HCR.
  pose proof (unfolded_truthy raw) as Hne.
  rewrite Forall_forall in *. intros l Hl.
  pose proof (Hclean _ Hl) as Hc.
  apply filter_In in Hl. destruct Hl as [Hin Hd].
  apply negb_true_iff in Hd.
  unfold settled. auto.
Qed.

End SanitizerFacts.

(* ================================================================== *)
(** ** The sanitizer: the properties of the specification *)
(* ================================================================== *)

Module SanitizerSpec.
Import PyBytes Sanitizer Spec PyBytesFacts SanitizerFacts Examples.

Lemma folded_feed_lines :
  unfolded_lines folded_feed
  = [b "BEGIN:VEVENT"; b "DESCRIPTION:one twothree"; b "02:SOMEVALUE";
     b "123"; b "SUMMARY:02"; b "END:VEVENT"]
  /\ sanitized_lines folded_feed
     = [b "BEGIN:VEVENT"; b "DESCRIPTION:one twothree";
        b "123"; b "SUMMARY:02"; b "END:VEVENT"].
Proof. split; vm_compute; reflexivity. Qed.

(** C7. The filter passes over exactly the logical lines that are
    blank or whose property name (what precedes the first colon,
    trimmed) is one decimal digit or more and nothing else; every other
    logical line is kept as it is, in its place.  The line
    [02:SOMEVALUE] is in no output; the line [SUMMARY:02], when it is a
    logical line of the feed, is in the output.  The function is total:
    it raises on no input. *)
Theorem C7_digit_only_names_dropped (raw : bytes) :
  (exists keep : bytes -> bool,
      sanitized_lines raw = filter keep (unfolded_lines raw)
      /\ forall l, keep l = false <-> Blank l \/ DigitOnlyName l)
  /\ (forall l, In l (sanitized_lines raw)
                <-> In l (unfolded_lines raw)
                    /\ ~ Blank l /\ ~ DigitOnlyName l)
  /\ ~ In (b "02:SOMEVALUE") (sanitized_lines raw)
  /\ (In (b "SUMMARY:02") (unfolded_lines raw)
      -> In (b "SUMMARY:02") (sanitized_lines raw)).
Proof.
  assert (Hkeep : forall l, negb (dropped l) = false
                            <-> Blank l \/ DigitOnlyName l).
  { intros l. rewrite negb_false_iff. apply dropped_iff. }
  assert (Hin : forall l, In l (sanitized_lines raw)
                          <-> In l (unfolded_lines raw)
                              /\ ~ Blank l /\ ~ DigitOnlyName l).
  { intros l. rewrite sanitized_lines_filter, filter_In.
    specialize (Hkeep l). destruct (negb (dropped l)).
    - intuition congruence.
    - intuition congruence. }
  split; [|split; [|split]].
  - exists (fun l => negb (dropped l)). split.
    + apply sanitized_lines_filter.
    + exact Hkeep.
  - exact Hin.
  - rewrite sanitized_lines_filter, filter_In.
    intros [_ H]. vm_compute in H. discriminate.
  - intros H. rewrite sanitized_lines_filter. apply filter_In.
    split; [exact H | vm_compute; reflexivity].
Qed.

(** C10. A logical line that is not whitespace-only and holds no colon
    is kept, whatever its bytes: the digit test is applied only to
    lines with a colon. *)
Theorem C10_lines_without_colon_kept (raw l : bytes) :
  In l (unfolded_lines raw) -> ~ Blank l -> ~ In COLON l ->
  In l (sanitized_lines raw).
Proof.
  intros Hin Hb Hc. rewrite sanitized_lines_filter. apply filter_In.
  split; [assumption|]. apply negb_true_iff. unfold dropped.
  apply contains_false_iff in Hc. rewrite Hc, andb_false_l, orb_false_r.
  apply negb_false_iff. destruct (truthy (strip l)) eqn:E; [reflexivity|].
  exfalso. apply Hb. now apply blank_iff.
Qed.

(** The bare number [123] of [folded_feed] survives. *)
Lemma C10_witness : In (b "123") (sanitized_lines folded_feed).
Proof.
  apply (C10_lines_without_colon_kept folded_feed (b "123")).
  - vm_compute. tauto.
  - intros H. apply blank_iff in H. vm_compute in H. discriminate.
  - vm_compute. intuition discriminate.
Defined.

(** C9, as the specification states it, fails: the one logical line of
    [orphan_feed] begins with a space. *)
Lemma C9_counterexample :
  sanitized_lines orphan_feed = [b " A:1"]
  /\ is_continuation (b " A:1") = true
  /\ ~ (forall raw l, In l (sanitized_lines raw) ->
                      l <> [] /\ is_continuation l = false).
Proof.
  split; [reflexivity|]. split; [reflexivity|].
  intros H. destruct (H orphan_feed (b " A:1")) as [_ H'].
  - vm_compute. tauto.
  - vm_compute in H'. discriminate.
Qed.

(** C9, amended.  Every logical line of the output is non-empty, and
    not whitespace-only; it does not begin with a space or a TAB when
    the feed is well folded, that is when its first physical line is not
    a continuation and no continuation directly follows an empty
    line. *)
Theorem C9_lines_nonempty_and_clean_when_well_folded (raw l : bytes) :
  In l (sanitized_lines raw) ->
  l <> [] /\ ~ Blank l /\ (well_folded raw = true -> is_continuation l = false).
Proof.
  rewrite sanitized_lines_filter, filter_In. intros [Hin Hd].
  apply negb_true_iff in Hd. split; [|split].
  - pose proof (unfolded_truthy raw) as H. rewrite Forall_forall in H. auto.
  - intros Hb. assert (dropped l = true) by (apply dropped_iff; auto).
    congruence.
  - intros Hwf. pose proof (unfolded_clean raw Hwf) as H.
    rewrite Forall_forall in H. now apply H.
Qed.

Lemma C9_witness :
  In (b "DESCRIPTION:one twothree") (sanitized_lines folded_feed)
  /\ well_folded folded_feed = true
  /\ b "DESCRIPTION:one twothree" <> []
  /\ ~ Blank (b "DESCRIPTION:one twothree")
  /\ is_continuation (b "DESCRIPTION:one twothree") = false.
Proof.
  assert (Hin : In (b "DESCRIPTION:one twothree")
                   (sanitized_lines folded_feed))
    by (vm_compute; tauto).
  destruct (C9_lines_nonempty_and_clean_when_well_folded
              folded_feed (b "DESCRIPTION:one twothree") Hin)
    as [Hne [Hb Hc]].
  split; [exact Hin|]. split; [reflexivity|].
  split; [exact Hne|]. split; [exact Hb|].
  apply Hc. reflexivity.
Defined.

(** C8, as the specification states it, fails: sanitizing the output for
    [orphan_feed] once more removes the space the first pass left. *)
Lemma C8_counterexample :
  _sanitize_ics orphan_feed = b " A:1"
  /\ _sanitize_ics (_sanitize_ics orphan_feed) = b "A:1"
  /\ ~ (forall raw, _sanitize_ics (_sanitize_ics raw) = _sanitize_ics raw).
Proof.
  split; [reflexivity|]. split; [reflexivity|].
  intros H. specialize (H orphan_feed). vm_compute in H. discriminate.
Qed.

(** C8, amended.  On a well-folded feed (the first physical line is
    not a continuation and no continuation directly follows an empty
    line) sanitizing the output again returns it unchanged. *)
Theorem C8_idempotent_when_well_folded (raw : bytes) :
  well_folded raw = true ->
  _sanitize_ics (_sanitize_ics raw) = _sanitize_ics raw.
Proof.
  intros Hwf. apply sanitize_again.
  rewrite sanitized_lines_filter.
  pose proof (unfolded_clean raw Hwf) as H.
  rewrite Forall_forall in *. intros l Hl.
  apply filter_In in Hl. now apply H.
Qed.

Lemma C8_witness :
  _sanitize_ics (_sanitize_ics folded_feed) = _sanitize_ics folded_feed.
Proof.
  apply (C8_idempotent_when_well_folded folded_feed).
  vm_compute. reflexivity.
Defined.

End SanitizerSpec.


(* ================================================================== *)
(** ** The resolver: the properties of the specification *)
(* ================================================================== *)

Module CalendarSpec.
Import PyBytes Sanitizer PyDatetime Exn Calendar Spec Examples.
Open Scope string_scope.
Open Scope list_scope.
Open Scope Z_scope.

Lemma tz_is_refl (tz : tzinfo) : tz_is tz tz = true.
Proof. unfold tz_is. apply String.eqb_refl. Qed.

(** The nested copy of the sanitizer is the module-level one. *)
Lemma sanitize_ics_same (raw : bytes) : sanitize_ics raw = _sanitize_ics raw.
Proof. reflexivity. Qed.

(** *** Normalisation *)

(** C3, as the specification states it, fails: in America/Sao_Paulo the date
    2025-09-19 is normalised to its local midnight, the naive midnight of
    that date to 21:00 of the day before. *)
Lemma C3_counterexample :
  exists a c,
    _norm America_Sao_Paulo (DDate sept_19) = Some a
    /\ _norm America_Sao_Paulo (DDatetime (Naive (combine_min sept_19)))
       = Some c
    /\ isoformat a = "2025-09-19T00:00:00-03:00"
    /\ isoformat c = "2025-09-18T21:00:00-03:00"
    /\ dt_eq a c = false.
Proof.
  eexists. eexists. split; [reflexivity|]. split; [reflexivity|].
  split; [reflexivity|]. split; reflexivity.
Qed.

(** C3, amended.  For every date-only value D and every reference
    zone, normalize(D) is midnight of D on the clock of the reference
    zone, and normalize(datetime.combine(D, midnight)) is midnight of D in
    UTC converted to the reference zone, which is the former plus the
    zone's UTC offset at that instant.  The two are equal exactly when
    the reference zone is UTC or that offset is zero. *)
Theorem C3_norm_of_date_and_of_naive_midnight (TZ : tzinfo) (D : Z) :
  exists a c,
    _norm TZ (DDate D) = Some a
    /\ _norm TZ (DDatetime (Naive (combine_min D))) = Some c
    /\ wall a = combine_min D
    /\ (tz_is TZ UTC = false ->
        wall c = wall a + fst (tz_fromutc TZ (combine_min D)))
    /\ (dt_eq a c = true <->
        tz_is TZ UTC = true \/ fst (tz_fromutc TZ (combine_min D)) = 0).
Proof.
  unfold _norm, astimezone, replace_tzinfo. cbn [tzinfo_of].
  destruct (tz_is TZ UTC) eqn:Eutc.
  - eexists. eexists. split; [reflexivity|]. split; [reflexivity|].
    split; [reflexivity|]. split; [discriminate|].
    unfold dt_eq. cbn [tzinfo_of wall]. rewrite Eutc, Z.eqb_refl.
    split; auto.
  - unfold utc_of, utcoffset. cbn [tzinfo_of wall fold UTC fixed_zone tz_utcoffset].
    rewrite Z.sub_0_r.
    destruct (tz_fromutc TZ (combine_min D)) as [off fo] eqn:Eoff.
    eexists. eexists. split; [reflexivity|]. split; [reflexivity|].
    split; [reflexivity|]. split; [reflexivity|].
    unfold dt_eq. cbn [tzinfo_of wall fst]. rewrite tz_is_refl.
    rewrite Z.eqb_eq. split.
    + intros H. right. lia.
    + intros [H|H]; [discriminate | lia].
Qed.

(** *** The loop body *)

Section Body.
Variable TZ : tzinfo.
Variable rule : Type.
Variable rrulestr : string -> result rule.
Variable between : rule -> aware -> aware -> result (list pydatetime).
Variables START END : aware.






(** *** Recurring components *)

Lemma in_valid_props_iff (k : string) :
  in_valid_props k = true <-> In k valid_rrule_props.
Proof.
  unfold in_valid_props. rewrite existsb_exists. split.
  - intros [x [Hx E]]. apply String.eqb_eq in E. now subst.
  - intros H. exists k. split; [assumption | apply String.eqb_refl].
Qed.

Lemma parts_of_unrecognized (rr : list (string * list string))
      (parts : list string) :
  Forall unrecognized rr -> fold_left rrule_part_step rr parts = parts.
Proof.
  revert parts. induction rr as [|[k v] rr IH]; intros parts H; simpl.
  - reflexivity.
  - inversion H as [|? ? Hk Hrr]; subst. unfold unrecognized in Hk.
    simpl in Hk. destruct (in_valid_props (PyStr.upper k)) eqn:E.
    + apply in_valid_props_iff in E. contradiction.
    + simpl. now apply IH.
Qed.

(** The body on a component with items in its rule. *)
Lemma step_recurring (events : list event) (comp : vevent)
      (rr : list (string * list string)) (s1 e1 : aware) :
  rrule comp = Some rr -> rr <> [] ->
  normalized_times TZ comp = Some (s1, e1) ->
  component_step TZ rrulestr between START END events comp
  = expand TZ rrulestr between START END (title_of comp) s1 e1 rr events.
Proof.
  unfold component_step, normalized_times. intros Hrr Hne Ht.
  destruct (dtstart comp) as [ds|]; [|discriminate].
  destruct (_norm TZ ds) as [s|]; [|discriminate].
  destruct (match dtend comp with
            | Some de => _norm TZ de
            | None => Some (dt_add s (timedelta_hours 1))
            end) as [e|]; [|discriminate].
  injection Ht as -> ->. rewrite Hrr.
  destruct rr; [congruence | reflexivity].
Qed.

Lemma occurrence_loop (t : string) (s1 e1 : aware)
      (occs : list pydatetime) (events : list event) :
  fold_left (occurrence_step TZ START END t s1 e1) occs events
  = events
    ++ map (fun p => mk_event t (fst p) (snd p))
           (filter (fun p => dt_le (fst p) END && dt_ge (snd p) START)
                   (map (occurrence_of TZ s1 e1) occs)).
Proof.
  revert events. induction occs as [|occ occs IH]; intros events.
  - simpl. now rewrite app_nil_r.
  - cbn [fold_left map filter]. rewrite IH. unfold occurrence_step.
    destruct (occurrence_of TZ s1 e1 occ) as [occ_local oe].
    cbn [fst snd].
    destruct (dt_le occ_local END && dt_ge oe START).
    + cbn [map fst snd]. rewrite <- app_assoc. reflexivity.
    + reflexivity.
Qed.

Lemma dt_sub_add (a : aware) (d : timedelta) : dt_sub (dt_add a d) a = d.
Proof.
  unfold dt_sub, dt_add. cbn [tzinfo_of wall]. rewrite tz_is_refl. lia.
Qed.

Lemma occurrence_duration (s1 e1 : aware) (occ : pydatetime) :
  dt_sub (snd (occurrence_of TZ s1 e1 occ)) (fst (occurrence_of TZ s1 e1 occ))
  = dt_sub e1 s1.
Proof. unfold occurrence_of. cbn [fst snd]. apply dt_sub_add. Qed.

(** What [expand] appends: the occurrences of some enumerated starts. *)
Lemma expand_appends (t : string) (s1 e1 : aware)
      (rr : list (string * list string)) (events events' : list event) :
  expand TZ rrulestr between START END t s1 e1 rr events = Ok events' ->
  exists occs : list pydatetime,
    events' = events
              ++ map (fun p => mk_event t (fst p) (snd p))
                     (filter (fun p => dt_le (fst p) END && dt_ge (snd p) START)
                             (map (occurrence_of TZ s1 e1) occs)).
Proof.
  unfold expand. intros H.
  destruct (fold_left rrule_part_step rr []) as [|p ps].
  - injection H as <-. exists []. simpl. now rewrite app_nil_r.
  - destruct (rrulestr _) as [r|[|]].
    + destruct (between r _ _) as [occs|e]; [|discriminate].
      cbn [bind] in H. injection H as <-. exists occs.
      apply occurrence_loop.
    + injection H as <-. exists []. simpl. now rewrite app_nil_r.
    + discriminate.
Qed.

(** C5. Whatever a recurring component appends to the result is the
    list of the occurrences [(start, end)] of some enumerated starts,
    and for each of them [end - start] is the component's own
    [end - start]: the end is the start plus that duration. *)
Theorem C5_occurrences_keep_the_duration
        (events events' : list event) (comp : vevent)
        (rr : list (string * list string)) (s1 e1 : aware) :
  rrule comp = Some rr -> rr <> [] ->
  normalized_times TZ comp = Some (s1, e1) ->
  component_step TZ rrulestr between START END events comp = Ok events' ->
  exists emitted : list (aware * aware),
    events' = events
              ++ map (fun p => mk_event (title_of comp) (fst p) (snd p)) emitted
    /\ Forall (fun p => dt_sub (snd p) (fst p) = dt_sub e1 s1
                        /\ snd p = dt_add (fst p) (dt_sub e1 s1)) emitted.
Proof.
  intros Hrr Hne Ht H.
  rewrite (step_recurring events comp rr s1 e1 Hrr Hne Ht) in H.
  destruct (expand_appends _ _ _ _ _ _ H) as [occs ->].
  eexists. split; [reflexivity|].
  apply Forall_forall. intros p Hp. apply filter_In in Hp.
  destruct Hp as [Hp _]. apply in_map_iff in Hp.
  destruct Hp as [occ [<- _]]. split.
  - apply occurrence_duration.
  - reflexivity.
Qed.

(** C4, amended.  A component whose rule has parts, all of them outside
    the allow-list, adds nothing to the result and raises nothing.  A
    component whose rule is present but has no part at all is handled as
    the same component without a rule, that is as the single
    non-recurring form. *)
Theorem C4_rule_without_recognized_parts
        (events : list event) (comp : vevent)
        (rr : list (string * list string)) :
  rrule comp = Some rr ->
  (rr <> [] -> Forall unrecognized rr ->
   component_step TZ rrulestr between START END events comp = Ok events)
  /\ (rr = [] ->
      component_step TZ rrulestr between START END events comp
      = component_step TZ rrulestr between START END events
          (mk_vevent (summary comp) (dtstart comp) (dtend comp) None)).
Proof.
  intros Hrr. split.
  - intros Hne Hall. unfold component_step.
    destruct (dtstart comp) as [ds|]; [|reflexivity].
    destruct (_norm TZ ds) as [s|]; [|destruct (dtend comp); reflexivity].
    destruct (match dtend comp with
              | Some de => _norm TZ de
              | None => Some (dt_add s (timedelta_hours 1))
              end) as [e|]; [|reflexivity].
    rewrite Hrr. destruct rr as [|kv rr']; [congruence|].
    unfold expand. now rewrite (parts_of_unrecognized _ _ Hall).
  - intros ->. unfold component_step. cbn [dtstart dtend rrule summary].
    rewrite Hrr. reflexivity.
Qed.

End Body.

(** The stand-in parser reads the feeds of the examples as expected. *)
Lemma example_feeds_parse :
  ICalModel.from_ical (sanitize_ics standup_feed) = Ok [standup]
  /\ ICalModel.from_ical (sanitize_ics empty_rule_feed)
     = Ok [standup_empty_rule].
Proof. split; vm_compute; reflexivity. Qed.

(** C1. Whatever feed the calendar parser reads as the one VEVENT
    [DTSTART:20250919T140000Z], [DTEND:20250919T150000Z],
    [SUMMARY:Standup] without a rule, resolving it in America/Sao_Paulo
    over [2025-09-19T00:00:00-03:00, 2025-09-19T23:59:59-03:00] gives
    exactly one occurrence, titled Standup, that starts at
    2025-09-19T11:00:00-03:00 (and ends at 12:00:00-03:00). *)
Theorem C1_standup_resolved
        (from_ical : bytes -> result (list vevent))
        (rule : Type) (rrulestr : string -> result rule)
        (between : rule -> aware -> aware -> result (list pydatetime))
        (raw : bytes) :
  from_ical (sanitize_ics raw) = Ok [standup] ->
  _parse_ics America_Sao_Paulo from_ical rrulestr between
             day_start day_end raw
  = Ok [mk_event_dict "Standup"
                      (Some "2025-09-19T11:00:00-03:00")
                      (Some "2025-09-19T12:00:00-03:00")].
Proof.
  intros H. unfold _parse_ics. rewrite H. reflexivity.
Qed.

Lemma C1_witness :
  _parse_ics America_Sao_Paulo ICalModel.from_ical daily_rrulestr
             ICalModel.between day_start day_end standup_feed
  = Ok [standup_event].
Proof.
  apply (C1_standup_resolved ICalModel.from_ical ICalModel.series
                             daily_rrulestr ICalModel.between standup_feed).
  vm_compute. reflexivity.
Defined.


Lemma unrecognized_by_test (kv : string * list string) :
  in_valid_props (PyStr.upper (fst kv)) = false -> unrecognized kv.
Proof.
  unfold unrecognized. intros H Hin. apply in_valid_props_iff in Hin.
  congruence.
Qed.

(** C4, as the specification states it, fails for the rule that is present but
    empty: the VEVENT of [empty_rule_feed], whose [RRULE] has no part,
    yields its one occurrence, as the same VEVENT without a rule does. *)
Lemma C4_counterexample :
  rrule standup_empty_rule = Some []
  /\ component_step America_Sao_Paulo daily_rrulestr ICalModel.between
                    day_start day_end [] standup_empty_rule
     = Ok [standup_event]
  /\ _parse_ics America_Sao_Paulo ICalModel.from_ical daily_rrulestr
                ICalModel.between day_start day_end empty_rule_feed
     = Ok [standup_event].
Proof.
  split; [reflexivity|]. split; vm_compute; reflexivity.
Qed.

Lemma C4_witness :
  component_step America_Sao_Paulo daily_rrulestr ICalModel.between
                 day_start day_end [] standup_unknown_rule
  = Ok []
  /\ component_step America_Sao_Paulo daily_rrulestr ICalModel.between
                    day_start day_end [] standup_empty_rule
     = component_step America_Sao_Paulo daily_rrulestr ICalModel.between
                      day_start day_end [] standup.
Proof.
  split.
  - destruct (C4_rule_without_recognized_parts
                America_Sao_Paulo ICalModel.series daily_rrulestr
                ICalModel.between day_start day_end [] standup_unknown_rule
                [("X-FOO", ["1"]); ("X-BAR", ["A"; "B"])] eq_refl)
      as [H _].
    apply H; [discriminate|].
    repeat constructor; apply unrecognized_by_test; reflexivity.
  - destruct (C4_rule_without_recognized_parts
                America_Sao_Paulo ICalModel.series daily_rrulestr
                ICalModel.between day_start day_end [] standup_empty_rule
                [] eq_refl)
      as [_ H].
    exact (H eq_refl).
Defined.

Lemma C5_witness :
  exists emitted : list (aware * aware),
    daily_events
    = [] ++ map (fun p => mk_event (title_of daily) (fst p) (snd p)) emitted
    /\ Forall (fun p => dt_sub (snd p) (fst p) = dt_sub daily_end daily_start
                        /\ snd p = dt_add (fst p)
                                          (dt_sub daily_end daily_start))
              emitted.
Proof.
  apply (C5_occurrences_keep_the_duration
           America_Sao_Paulo ICalModel.series daily_rrulestr
           ICalModel.between week_start week_end [] daily_events daily
           [("FREQ", ["DAILY"]); ("COUNT", ["5"])] daily_start daily_end).
  - reflexivity.
  - discriminate.
  - reflexivity.
  - vm_compute. reflexivity.
Defined.

(** *** Primary or fallback *)

Section Driver.
Variable TZ : tzinfo.
Variable from_ical : bytes -> result (list vevent).
Variable rule : Type.
Variable rrulestr : string -> result rule.
Variable between : rule -> aware -> aware -> result (list pydatetime).
Variable ics_src : option string.
Variable token : option string.
Variable requests_get : string -> result response.
Variable read_file : string -> result bytes.
Variable calendar_api : string -> string -> string -> result api_response.
Variables START END : aware.

Lemma api_loop (items : list api_item) (out : list event) :
  fold_left api_item_step items out = out ++ map event_of_item items.
Proof.
  revert out. induction items as [|ev items IH]; intros out; simpl.
  - now rewrite app_nil_r.
  - rewrite IH. unfold api_item_step. now rewrite <- app_assoc.
Qed.


(** A usable primary feed is the whole answer: the API is not asked. *)
Lemma usable_primary_is_returned (evs : list event) :
  primary TZ from_ical rrulestr between ics_src requests_get read_file
          START END = Some evs ->
  gcal_events TZ from_ical rrulestr between ics_src token requests_get
              read_file calendar_api START END = Ok evs.
Proof. unfold gcal_events. now intros ->. Qed.


End Driver.



End CalendarSpec.

(* ================================================================== *)
(** ** The sanitizer: further properties *)
(* ================================================================== *)

Module SanitizerMore.
Import PyBytes Sanitizer Spec Vocabulary PyBytesFacts SanitizerFacts Examples.

(** *** Folded lines *)

Lemma is_continuation_app (l c : bytes) :
  l <> [] -> is_continuation (l ++ c) = is_continuation l.
Proof.
  destruct l as [|x l]; [congruence|]. intros _.
  simpl. now rewrite !is_continuation_cons.
Qed.

Lemma marker_continuation (m : byte) (c : bytes) :
  is_marker m -> is_continuation (m :: c) = true.
Proof.
  intros [-> | ->]; rewrite is_continuation_cons; reflexivity.
Qed.

Lemma from1_app (l c : bytes) : l <> [] -> from1 (l ++ c) = from1 l ++ c.
Proof. destruct l; [congruence | reflexivity]. Qed.

(** A line and its continuation are one step of the loop on the line
    put together. *)
Lemma unfold_step_folded (st : unfold_state) (l : bytes) (m : byte) (c : bytes) :
  l <> [] -> is_marker m ->
  unfold_step (unfold_step st l) (m :: c) = unfold_step st (l ++ c).
Proof.
  intros Hl Hm. destruct st as [u cur]. unfold unfold_step at 2 3.
  rewrite (is_continuation_app l c Hl).
  destruct (is_continuation l); unfold unfold_step;
    rewrite (marker_continuation m c Hm); unfold from1 at 1; cbn [tl].
  - rewrite (from1_app l c Hl). now rewrite app_assoc.
  - reflexivity.
Qed.

Lemma unfold_loop_folded (chunks : list (byte * bytes)) (l : bytes)
      (after : list bytes) (st : unfold_state) :
  l <> [] -> Forall (fun mc => is_marker (fst mc)) chunks ->
  fold_left unfold_step (l :: map continuation chunks ++ after) st
  = fold_left unfold_step ((l ++ List.concat (map snd chunks)) :: after) st.
Proof.
  revert l. induction chunks as [|[m c] chunks IH]; intros l Hl Hm.
  - simpl. now rewrite app_nil_r.
  - inversion Hm as [|? ? Hm1 Hm2]; subst. simpl in Hm1.
    change (fold_left unfold_step
              (l :: map continuation ((m, c) :: chunks) ++ after) st)
      with (fold_left unfold_step (map continuation chunks ++ after)
              (unfold_step (unfold_step st l) (m :: c))).
    rewrite (unfold_step_folded st l m c Hl Hm1).
    change (fold_left unfold_step (map continuation chunks ++ after)
              (unfold_step st (l ++ c)))
      with (fold_left unfold_step
              ((l ++ c) :: map continuation chunks ++ after) st).
    rewrite IH; [|destruct l; [congruence | discriminate] | assumption].
    cbn [map List.concat snd]. now rewrite <- app_assoc.
Qed.

Lemma plain_join (ls : list bytes) :
  Forall plain ls -> ~ In CR (join [LF] ls).
Proof.
  intros H. apply join_absent; [discriminate|].
  eapply Forall_impl; [|exact H]. unfold plain. tauto.
Qed.

(** The logical lines of a feed given by its physical lines. *)
Lemma unfolded_lines_of_join (ls : list bytes) :
  ls <> [] -> Forall plain ls ->
  unfolded_lines (join [LF] ls)
  = unfold_finish (fold_left unfold_step ls ([], [])).
Proof.
  intros Hne Hp. unfold unfolded_lines, normalize_newlines, unfold_lines.
  pose proof (plain_join ls Hp) as HCR.
  rewrite (replace_absent_first CR [LF] [LF] _ HCR).
  rewrite (replace_absent_first CR [] [LF] _ HCR).
  rewrite split_join; [reflexivity | assumption |].
  eapply Forall_impl; [|exact Hp]. unfold plain. tauto.
Qed.

Lemma plain_app (a c : bytes) : plain a -> plain c -> plain (a ++ c).
Proof.
  unfold plain. intros [H1 H2] [H3 H4]. split; apply not_in_app; assumption.
Qed.

Lemma plain_concat (ls : list bytes) : Forall plain ls -> plain (List.concat ls).
Proof.
  induction 1 as [|l ls Hl _ IH]; simpl.
  - split; simpl; tauto.
  - now apply plain_app.
Qed.

Lemma plain_continuation (mc : byte * bytes) :
  is_marker (fst mc) -> plain (snd mc) -> plain (continuation mc).
Proof.
  destruct mc as [m c]. unfold plain, continuation. simpl.
  intros [-> | ->] [H1 H2]; split; intros [E|E];
    try discriminate; contradiction.
Qed.

(** X1. Folding changes nothing: a line followed by continuation lines
    gives the logical lines of the feed in which that line is written
    in one piece, wherever it stands in the feed. *)
Theorem unfolding_restores_the_line
        (before after : list bytes) (l : bytes)
        (chunks : list (byte * bytes)) :
  l <> [] -> plain l ->
  Forall plain before -> Forall plain after ->
  Forall (fun mc => is_marker (fst mc) /\ plain (snd mc)) chunks ->
  unfolded_lines
    (join [LF] (before ++ l :: map continuation chunks ++ after))
  = unfolded_lines
      (join [LF] (before ++ (l ++ List.concat (map snd chunks)) :: after)).
Proof.
  intros Hl Hpl Hb Ha Hc.
  assert (Hm : Forall (fun mc => is_marker (fst mc)) chunks)
    by (eapply Forall_impl; [|exact Hc]; simpl; tauto).
  assert (Hcs : Forall plain (map snd chunks)).
  { apply Forall_forall. intros c Hin. apply in_map_iff in Hin.
    destruct Hin as [mc [<- Hin]]. rewrite Forall_forall in Hc.
    now apply Hc. }
  assert (Hconts : Forall plain (map continuation chunks)).
  { apply Forall_forall. intros c Hin. apply in_map_iff in Hin.
    destruct Hin as [mc [<- Hin]]. rewrite Forall_forall in Hc.
    destruct (Hc _ Hin). now apply plain_continuation. }
  rewrite !unfolded_lines_of_join.
  - rewrite !fold_left_app. now rewrite unfold_loop_folded.
  - intros E. apply app_eq_nil in E. destruct E; discriminate.
  - apply Forall_app_intro; [assumption|]. constructor; [|assumption].
    apply plain_app; [assumption | now apply plain_concat].
  - intros E. apply app_eq_nil in E. destruct E; discriminate.
  - apply Forall_app_intro; [assumption|]. constructor; [assumption|].
    now apply Forall_app_intro.
Qed.

Lemma unfolding_restores_the_line_witness :
  unfolded_lines
    (join [LF] ([b "BEGIN:VEVENT"]
                ++ b "DESCRIPTION:one"
                   :: map continuation [(SP, b " two"); (TAB, b "three")]
                ++ [b "END:VEVENT"]))
  = unfolded_lines
      (join [LF] ([b "BEGIN:VEVENT"]
                  ++ (b "DESCRIPTION:one"
                        ++ List.concat (map snd [(SP, b " two"); (TAB, b "three")]))
                  :: [b "END:VEVENT"])).
Proof.
  apply (unfolding_restores_the_line
           [b "BEGIN:VEVENT"] [b "END:VEVENT"] (b "DESCRIPTION:one")
           [(SP, b " two"); (TAB, b "three")]).
  - discriminate.
  - split; vm_compute; intuition discriminate.
  - repeat constructor; vm_compute; intuition discriminate.
  - repeat constructor; vm_compute; intuition discriminate.
  - repeat constructor; vm_compute; intuition discriminate.
Defined.

(** *** Line endings *)

Lemma replace_from_app_absent (c : byte) (old' new l rest : bytes) :
  ~ In c l ->
  replace_from (c :: old') new 0 (l ++ rest)
  = l ++ replace_from (c :: old') new 0 rest.
Proof.
  induction l as [|x l IH]; intros H; [reflexivity|].
  cbn [app replace_from startswith].
  destruct (Byte.eqb c x) eqn:E.
  - apply eqb_true_iff in E. subst. exfalso. apply H. now left.
  - cbn [andb]. rewrite IH; [reflexivity|]. intros Hin. apply H. now right.
Qed.

Lemma replace_crlf_no_lf (s : bytes) :
  ~ In LF s -> replace s [CR; LF] [LF] = s.
Proof.
  unfold replace. induction s as [|x s IH]; intros H; [reflexivity|].
  cbn [replace_from startswith].
  assert (Hs : ~ In LF s) by (intros Hin; apply H; now right).
  destruct (Byte.eqb CR x); cbn [andb].
  - destruct s as [|y s'].
    + reflexivity.
    + cbn [startswith]. destruct (Byte.eqb LF y) eqn:E.
      * apply eqb_true_iff in E. subst. exfalso. apply Hs. now left.
      * cbn [andb]. now rewrite IH.
  - now rewrite IH.
Qed.

Lemma replace_crlf_head (rest : bytes) :
  replace_from [CR; LF] [LF] 0 (CR :: LF :: rest)
  = LF :: replace_from [CR; LF] [LF] 0 rest.
Proof. simpl. now rewrite startswith_nil. Qed.

(** CRLF line ends become LF. *)
Lemma normalize_crlf (ls : list bytes) :
  Forall plain ls -> normalize_newlines (join [CR; LF] ls) = join [LF] ls.
Proof.
  intros Hp. unfold normalize_newlines.
  assert (E : replace (join [CR; LF] ls) [CR; LF] [LF] = join [LF] ls).
  { unfold replace. induction Hp as [|l ls [_ Hl] Hls IH]; [reflexivity|].
    destruct ls as [|l' ls].
    - simpl. apply (replace_absent_first CR [LF] [LF] l Hl).
    - change (join [CR; LF] (l :: l' :: ls))
        with (l ++ CR :: LF :: join [CR; LF] (l' :: ls)).
      rewrite (replace_from_app_absent CR [LF] [LF] l _ Hl).
      change (join [LF] (l :: l' :: ls))
        with (l ++ LF :: join [LF] (l' :: ls)).
      rewrite replace_crlf_head. now rewrite IH. }
  rewrite E. apply replace_absent_first. now apply plain_join.
Qed.

(** Bare CR line ends become LF. *)
Lemma normalize_cr (ls : list bytes) :
  Forall plain ls -> normalize_newlines (join [CR] ls) = join [LF] ls.
Proof.
  intros Hp. unfold normalize_newlines.
  rewrite replace_crlf_no_lf.
  - rewrite replace1_map.
    induction Hp as [|l ls [_ Hl] Hls IH]; [reflexivity|].
    assert (El : map (fun x => if Byte.eqb CR x then LF else x) l = l).
    { clear -Hl. induction l as [|x l IHl]; [reflexivity|]. simpl.
      destruct (Byte.eqb CR x) eqn:E.
      - apply eqb_true_iff in E. subst. exfalso. apply Hl. now left.
      - rewrite IHl; [reflexivity|]. intros Hin. apply Hl. now right. }
    destruct ls as [|l' ls].
    + simpl. exact El.
    + change (join [CR] (l :: l' :: ls)) with (l ++ CR :: join [CR] (l' :: ls)).
      change (join [LF] (l :: l' :: ls)) with (l ++ LF :: join [LF] (l' :: ls)).
      rewrite map_app, El. cbn [map]. rewrite eqb_refl. now rewrite IH.
  - apply join_absent; [discriminate|].
    eapply Forall_impl; [|exact Hp]. unfold plain. tauto.
Qed.

Lemma normalize_lf (ls : list bytes) :
  Forall plain ls -> normalize_newlines (join [LF] ls) = join [LF] ls.
Proof.
  intros Hp. unfold normalize_newlines.
  pose proof (plain_join ls Hp) as HCR.
  rewrite (replace_absent_first CR [LF] [LF] _ HCR).
  now rewrite (replace_absent_first CR [] [LF] _ HCR).
Qed.

(** X2. The style of the line ends does not matter: the same physical
    lines joined by CRLF, by bare CR or by LF sanitize to the same
    bytes. *)
Theorem line_ending_style_is_irrelevant (ls : list bytes) :
  Forall plain ls ->
  _sanitize_ics (join [CR; LF] ls) = _sanitize_ics (join [LF] ls)
  /\ _sanitize_ics (join [CR] ls) = _sanitize_ics (join [LF] ls).
Proof.
  intros Hp. unfold _sanitize_ics, sanitized_lines, unfolded_lines.
  now rewrite (normalize_crlf ls Hp), (normalize_cr ls Hp),
    (normalize_lf ls Hp).
Qed.

Lemma line_ending_style_is_irrelevant_witness :
  _sanitize_ics (join [CR; LF] [b "A:1"; b " x"; b "02:Y"; b "B:2"])
  = _sanitize_ics (join [LF] [b "A:1"; b " x"; b "02:Y"; b "B:2"])
  /\ _sanitize_ics (join [CR] [b "A:1"; b " x"; b "02:Y"; b "B:2"])
     = _sanitize_ics (join [LF] [b "A:1"; b " x"; b "02:Y"; b "B:2"]).
Proof.
  apply (line_ending_style_is_irrelevant
           [b "A:1"; b " x"; b "02:Y"; b "B:2"]).
  repeat constructor; vm_compute; intuition discriminate.
Defined.

(** *** The output as the parser reads it *)

(** X3. The output holds no carriage return, and splitting it on LF
    gives back the surviving lines; it is empty exactly when no line
    survives. *)
Theorem output_splits_into_the_lines (raw : bytes) :
  ~ In CR (_sanitize_ics raw)
  /\ (sanitized_lines raw <> [] ->
      split (_sanitize_ics raw) LF = sanitized_lines raw)
  /\ (sanitized_lines raw = [] <-> _sanitize_ics raw = []).
Proof.
  assert (HLF : Forall (fun l => ~ In LF l) (sanitized_lines raw)).
  { rewrite sanitized_lines_filter. pose proof (unfolded_no_LF raw) as H.
    rewrite Forall_forall in *. intros l Hl. apply filter_In in Hl.
    now apply H. }
  assert (HCR : Forall (fun l => ~ In CR l) (sanitized_lines raw)).
  { rewrite sanitized_lines_filter. pose proof (unfolded_no_CR raw) as H.
    rewrite Forall_forall in *. intros l Hl. apply filter_In in Hl.
    now apply H. }
  assert (Hne : Forall (fun l => l <> []) (sanitized_lines raw)).
  { rewrite sanitized_lines_filter. pose proof (unfolded_truthy raw) as H.
    rewrite Forall_forall in *. intros l Hl. apply filter_In in Hl.
    now apply H. }
  unfold _sanitize_ics. split; [|split].
  - apply join_absent; [discriminate | assumption].
  - intros H. now apply split_join.
  - split; [now intros -> |].
    destruct (sanitized_lines raw) as [|l ls]; [reflexivity|].
    inversion Hne as [|? ? Hl _]; subst. intros E. exfalso.
    destruct ls as [|l' ls]; simpl in E.
    + contradiction.
    + apply app_eq_nil in E. destruct E. contradiction.
Qed.

(** *** Size *)

Lemma startswith_length (s p : bytes) :
  startswith s p = true -> (List.length p <= List.length s)%nat.
Proof.
  revert s. induction p as [|c p IH]; intros s H; simpl; [lia|].
  destruct s as [|d s]; [discriminate|]. simpl in H.
  apply andb_true_iff in H. destruct H as [_ H]. apply IH in H.
  simpl. lia.
Qed.

Lemma replace_from_length (old new : bytes) (k : nat) (s : bytes) :
  old <> [] -> (List.length new <= List.length old)%nat ->
  (List.length (replace_from old new k s) + Nat.min k (List.length s)
   <= List.length s)%nat.
Proof.
  intros Hold Hlen. revert k.
  induction s as [|c s IH]; intros k; [simpl; lia|].
  cbn [replace_from]. destruct k as [|k].
  - destruct (startswith (c :: s) old) eqn:E.
    + apply startswith_length in E. cbn [List.length] in *.
      specialize (IH (List.length old - 1)%nat).
      rewrite length_app.
      assert (List.length old <> 0)%nat by (destruct old; simpl; congruence).
      lia.
    + specialize (IH 0%nat). cbn [List.length]. lia.
  - specialize (IH k). cbn [List.length]. lia.
Qed.

Lemma normalize_length (raw : bytes) :
  (List.length (normalize_newlines raw) <= List.length raw)%nat.
Proof.
  unfold normalize_newlines, replace.
  pose proof (replace_from_length [CR; LF] [LF] 0 raw) as H1.
  pose proof (replace_from_length [CR] [LF] 0
                (replace_from [CR; LF] [LF] 0 raw)) as H2.
  simpl in H1, H2.
  assert ([CR; LF] <> []) by discriminate.
  assert ([CR] <> []) by discriminate.
  specialize (H1 ltac:(assumption) ltac:(lia)).
  specialize (H2 ltac:(assumption) ltac:(lia)). lia.
Qed.

Lemma weight_app (a c : list bytes) : weight (a ++ c) = (weight a + weight c)%nat.
Proof. unfold weight. now rewrite map_app, list_sum_app. Qed.

Lemma weight_cons (l : bytes) (ls : list bytes) :
  weight (l :: ls) = (S (List.length l) + weight ls)%nat.
Proof. reflexivity. Qed.

Lemma weight_split (s : bytes) : weight (split s LF) = S (List.length s).
Proof.
  induction s as [|c s IH]; [reflexivity|]. simpl.
  destruct (Byte.eqb c LF).
  - unfold weight in *. simpl. simpl in IH. lia.
  - destruct (split s LF) as [|l ls].
    + unfold weight in *. simpl in *. lia.
    + unfold weight in *. simpl in *. lia.
Qed.

Lemma weight_join (ls : list bytes) :
  List.length (join [LF] ls) = (weight ls - 1)%nat.
Proof.
  induction ls as [|l ls IH]; [reflexivity|].
  destruct ls as [|l' ls].
  - unfold weight. simpl. lia.
  - change (join [LF] (l :: l' :: ls)) with (l ++ LF :: join [LF] (l' :: ls)).
    rewrite length_app. cbn [List.length]. rewrite IH.
    rewrite (weight_cons l (l' :: ls)), (weight_cons l' ls). lia.
Qed.

Lemma weight_filter (f : bytes -> bool) (ls : list bytes) :
  (weight (filter f ls) <= weight ls)%nat.
Proof.
  unfold weight. induction ls as [|l ls IH]; simpl; [lia|].
  destruct (f l); simpl; lia.
Qed.

Lemma weight_unfold_loop (lines : list bytes) (u : list bytes) (cur : bytes) :
  (weight (unfold_finish (fold_left unfold_step lines (u, cur)))
   <= weight lines + weight u
      + (if truthy cur then S (List.length cur) else 0))%nat.
Proof.
  revert u cur. induction lines as [|l lines IH]; intros u cur.
  - simpl. destruct (truthy cur).
    + rewrite weight_app. unfold weight. simpl. lia.
    + unfold weight. simpl. lia.
  - cbn [fold_left]. unfold unfold_step at 2. rewrite weight_cons.
    destruct (is_continuation l) eqn:El.
    + specialize (IH u (cur ++ from1 l)).
      assert (Hl : (List.length (from1 l) < List.length l)%nat).
      { destruct l; [discriminate | simpl; lia]. }
      rewrite length_app in IH. revert IH.
      destruct (truthy (cur ++ from1 l)); destruct (truthy cur) eqn:Ec;
        intros IH; try (eapply Nat.le_trans; [exact IH | lia]).
      apply truthy_false_iff in Ec. subst. simpl in IH.
      eapply Nat.le_trans; [exact IH | simpl; lia].
    + destruct (truthy cur).
      * specialize (IH (u ++ [cur]) l). rewrite weight_app in IH.
        rewrite (weight_cons cur []) in IH. unfold weight at 4 in IH.
        simpl in IH. revert IH.
        destruct (truthy l); intros IH;
          (eapply Nat.le_trans; [exact IH | lia]).
      * specialize (IH u l). revert IH.
        destruct (truthy l); intros IH;
          (eapply Nat.le_trans; [exact IH | lia]).
Qed.

(** X4. Sanitizing never makes the feed longer. *)
Theorem sanitizing_never_grows (raw : bytes) :
  (List.length (_sanitize_ics raw) <= List.length raw)%nat.
Proof.
  unfold _sanitize_ics. rewrite weight_join, sanitized_lines_filter.
  pose proof (weight_filter (fun l => negb (dropped l)) (unfolded_lines raw)).
  unfold unfolded_lines, unfold_lines in *.
  pose proof (weight_unfold_loop (split (normalize_newlines raw) LF) [] []).
  rewrite weight_split in *. simpl in *.
  pose proof (normalize_length raw). change (weight []) with 0%nat in H0.
  eapply Nat.le_trans; [apply Nat.sub_le_mono_r; exact H|].
  eapply Nat.le_trans; [apply Nat.sub_le_mono_r; exact H0|].
  lia.
Qed.

(** *** Clean feeds *)

(** X26. A feed with nothing to repair passes unchanged: lines that
    are not empty, hold no line end, do not begin with a space or a TAB
    and are neither blank nor named by digits are returned as they are,
    joined by LF, whether the feed joins them by LF or by CRLF. *)
Theorem clean_feed_is_unchanged (ls : list bytes) :
  Forall settled ls ->
  _sanitize_ics (join [LF] ls) = join [LF] ls
  /\ _sanitize_ics (join [CR; LF] ls) = join [LF] ls.
Proof.
  intros H.
  assert (Hp : Forall plain ls).
  { eapply Forall_impl; [|exact H]. unfold settled, plain. tauto. }
  assert (E : _sanitize_ics (join [LF] ls) = join [LF] ls).
  { unfold _sanitize_ics. now rewrite sanitized_lines_settled. }
  split; [exact E|].
  destruct (line_ending_style_is_irrelevant ls Hp) as [-> _]. exact E.
Qed.

Lemma clean_feed_is_unchanged_witness :
  _sanitize_ics (join [LF] [b "BEGIN:VEVENT"; b "SUMMARY:02"; b "END:VEVENT"])
  = join [LF] [b "BEGIN:VEVENT"; b "SUMMARY:02"; b "END:VEVENT"]
  /\ _sanitize_ics
       (join [CR; LF] [b "BEGIN:VEVENT"; b "SUMMARY:02"; b "END:VEVENT"])
     = join [LF] [b "BEGIN:VEVENT"; b "SUMMARY:02"; b "END:VEVENT"].
Proof.
  apply (clean_feed_is_unchanged
           [b "BEGIN:VEVENT"; b "SUMMARY:02"; b "END:VEVENT"]).
  repeat constructor; try discriminate; try reflexivity;
    vm_compute; intuition discriminate.
Defined.

End SanitizerMore.

(* ================================================================== *)
(** ** The resolver: further properties *)
(* ================================================================== *)

Module CalendarMore.
Import PyBytes Sanitizer PyDatetime Exn Calendar Spec Vocabulary.
Import Examples MoreExamples CalendarSpec.
Open Scope string_scope.
Open Scope list_scope.
Open Scope Z_scope.

(** *** Normalisation *)

Lemma tz_is_sym (a c : tzinfo) : tz_is a c = tz_is c a.
Proof. unfold tz_is. apply String.eqb_sym. Qed.

(** X5. Whatever [_norm] returns carries the reference zone, and
    normalising it again returns it unchanged. *)
Theorem norm_lands_in_the_reference_zone
        (TZ : tzinfo) (v : dtvalue) (a : aware) :
  _norm TZ v = Some a ->
  tz_is (tzinfo_of a) TZ = true
  /\ _norm TZ (DDatetime (Aware a)) = Some a.
Proof.
  intros H.
  assert (Hz : tz_is (tzinfo_of a) TZ = true).
  { destruct v as [d | [w | a0] |]; simpl in H; try discriminate;
      injection H as <-.
    - apply tz_is_refl.
    - unfold astimezone. cbn [tzinfo_of replace_tzinfo].
      destruct (tz_is TZ UTC) eqn:E.
      + cbn [tzinfo_of]. now rewrite tz_is_sym.
      + destruct (tz_fromutc TZ _). apply tz_is_refl.
    - unfold astimezone. destruct (tz_is TZ (tzinfo_of a0)) eqn:E.
      + now rewrite tz_is_sym.
      + destruct (tz_fromutc TZ _). apply tz_is_refl. }
  split; [assumption|].
  simpl. unfold astimezone. now rewrite tz_is_sym, Hz.
Qed.

Lemma norm_lands_in_the_reference_zone_witness :
  tz_is (tzinfo_of (replace_tzinfo (naive_of_fields 2025 9 19 11 0 0)
                                   America_Sao_Paulo))
        America_Sao_Paulo = true
  /\ _norm America_Sao_Paulo
           (DDatetime (Aware (replace_tzinfo (naive_of_fields 2025 9 19 11 0 0)
                                             America_Sao_Paulo)))
     = Some (replace_tzinfo (naive_of_fields 2025 9 19 11 0 0)
                            America_Sao_Paulo).
Proof.
  apply (norm_lands_in_the_reference_zone
           America_Sao_Paulo (utc_datetime 2025 9 19 14 0 0)).
  reflexivity.
Defined.

Lemma astimezone_keeps_the_instant (tz : tzinfo) (a : aware) :
  consistent_zone tz -> utc_of (astimezone a tz) = utc_of a.
Proof.
  intros Hc. unfold astimezone.
  destruct (tz_is tz (tzinfo_of a)); [reflexivity|].
  specialize (Hc (utc_of a)).
  destruct (tz_fromutc tz (utc_of a)) as [off fo]. simpl in Hc.
  unfold utc_of at 1, utcoffset. cbn [wall fold tzinfo_of].
  rewrite Hc. lia.
Qed.

(** X6. When the reference zone is consistent, normalising a datetime
    does not move it in time: a zone-aware value keeps its instant, a
    naive value is the instant its fields name in UTC. *)
Theorem norm_keeps_the_instant
        (TZ : tzinfo) (v : pydatetime) (a : aware) :
  consistent_zone TZ ->
  _norm TZ (DDatetime v) = Some a ->
  utc_of a = instant_of v.
Proof.
  intros Hc H. destruct v as [w | a0]; simpl in H; injection H as <-.
  - rewrite (astimezone_keeps_the_instant TZ _ Hc).
    unfold utc_of, utcoffset, replace_tzinfo. simpl. lia.
  - now rewrite (astimezone_keeps_the_instant TZ _ Hc).
Qed.

Lemma fixed_zone_consistent (id : string) (off : timedelta) :
  consistent_zone (fixed_zone id off).
Proof. intros u. reflexivity. Qed.

Lemma norm_keeps_the_instant_witness :
  utc_of (replace_tzinfo (naive_of_fields 2025 9 19 11 0 0) America_Sao_Paulo)
  = instant_of (Naive (naive_of_fields 2025 9 19 14 0 0)).
Proof.
  apply (norm_keeps_the_instant America_Sao_Paulo).
  - apply fixed_zone_consistent.
  - reflexivity.
Defined.

(** *** The order of the result *)

Lemma insert_permutation (ev : event) (l : list event) :
  Permutation (ev :: l) (insert_by_start ev l).
Proof.
  induction l as [|x l IH]; simpl; [apply Permutation_refl|].
  destruct (String.leb (start_key ev) (start_key x)).
  - apply Permutation_refl.
  - eapply Permutation_trans; [apply perm_swap|]. now apply perm_skip.
Qed.

Lemma sort_permutation (l : list event) : Permutation l (sort_by_start l).
Proof.
  induction l as [|x l IH]; simpl; [constructor|].
  eapply Permutation_trans; [apply perm_skip; exact IH|].
  apply insert_permutation.
Qed.

Lemma insert_sorted (ev : event) (l : list event) :
  Sorted start_le l -> Sorted start_le (insert_by_start ev l).
Proof.
  induction 1 as [|x l Hs IH Hd]; simpl.
  - repeat constructor.
  - destruct (String.leb (start_key ev) (start_key x)) eqn:E.
    + constructor; [now constructor | now constructor].
    + constructor; [exact IH|].
      assert (Hx : start_le x ev).
      { unfold start_le. destruct (String.leb_total (start_key x) (start_key ev));
          [assumption | congruence]. }
      destruct l as [|y l]; simpl.
      * now constructor.
      * destruct (String.leb (start_key ev) (start_key y)).
        -- now constructor.
        -- inversion Hd; subst. now constructor.
Qed.

Lemma sort_sorted (l : list event) : Sorted start_le (sort_by_start l).
Proof.
  induction l as [|x l IH]; simpl; [constructor | now apply insert_sorted].
Qed.

Lemma leb_refl (s : string) : String.leb s s = true.
Proof. destruct (String.leb_total s s); assumption. Qed.

Lemma insert_stable (k : string) (ev : event) (l : list event) :
  with_start k (insert_by_start ev l) = with_start k (ev :: l).
Proof.
  unfold with_start. induction l as [|x l IH]; [reflexivity|].
  cbn [insert_by_start].
  destruct (String.leb (start_key ev) (start_key x)) eqn:E; [reflexivity|].
  cbn [filter] in *. rewrite IH.
  destruct (String.eqb (start_key ev) k) eqn:E1;
    destruct (String.eqb (start_key x) k) eqn:E2; try reflexivity.
  apply String.eqb_eq in E1, E2. rewrite E1, E2, leb_refl in E. discriminate.
Qed.

Lemma sort_stable (k : string) (l : list event) :
  with_start k (sort_by_start l) = with_start k l.
Proof.
  induction l as [|x l IH]; [reflexivity|].
  cbn [sort_by_start fold_right]. rewrite insert_stable.
  unfold with_start in *. cbn [filter]. fold (sort_by_start l).
  now rewrite IH.
Qed.

(** *** The loop over the components *)

Section Loop.
Variable TZ : tzinfo.
Variable from_ical : bytes -> result (list vevent).
Variable rule : Type.
Variable rrulestr : string -> result rule.
Variable between : rule -> aware -> aware -> result (list pydatetime).
Variables START END : aware.

Lemma title_of_not_empty (comp : vevent) : title_of comp <> "".
Proof.
  unfold title_of. destruct (summary comp) as [s|]; [|discriminate].
  destruct s; simpl; discriminate.
Qed.

(** Whatever one component appends went through the window test. *)
Lemma step_appends (events events' : list event) (comp : vevent) :
  component_step TZ rrulestr between START END events comp = Ok events' ->
  exists emitted : list (aware * aware),
    events' = events
              ++ map (fun p => mk_event (title_of comp) (fst p) (snd p)) emitted
    /\ Forall (fun p => in_window START END p = true) emitted.
Proof.
  unfold component_step. intros H.
  assert (Hnone : events' = events ->
                  exists emitted : list (aware * aware),
                    events' = events
                              ++ map (fun p => mk_event (title_of comp)
                                                        (fst p) (snd p)) emitted
                    /\ Forall (fun p => in_window START END p = true) emitted).
  { intros ->. exists []. simpl. rewrite app_nil_r. split; constructor. }
  destruct (dtstart comp) as [ds|]; [|injection H as <-; now apply Hnone].
  destruct (_norm TZ ds) as [s1|].
  2:{ destruct (dtend comp) as [de|]; [destruct (_norm TZ de)|];
      injection H as <-; now apply Hnone. }
  destruct (match dtend comp with
            | Some de => _norm TZ de
            | None => Some (dt_add s1 (timedelta_hours 1))
            end) as [e1|]; [|injection H as <-; now apply Hnone].
  assert (Hsingle :
            (if dt_le s1 END && dt_ge e1 START
             then Ok (events ++ [mk_event (title_of comp) s1 e1])
             else Ok events) = Ok events' ->
            exists emitted : list (aware * aware),
              events' = events
                        ++ map (fun p => mk_event (title_of comp)
                                                  (fst p) (snd p)) emitted
              /\ Forall (fun p => in_window START END p = true) emitted).
  { destruct (dt_le s1 END && dt_ge e1 START) eqn:E; intros H'.
    - injection H' as <-. exists [(s1, e1)]. split; [reflexivity|].
      constructor; [exact E | constructor].
    - injection H' as <-. now apply Hnone. }
  destruct (rrule comp) as [[|kv rr]|]; try (now apply Hsingle).
  destruct (expand_appends TZ rule rrulestr between START END _ _ _ _ _ _ H)
    as [occs ->].
  eexists. split; [reflexivity|].
  apply Forall_forall. intros p Hp. apply filter_In in Hp. now destruct Hp.
Qed.

Lemma loop_appends (comps : list vevent) (events events' : list event)
      (P : event -> Prop) :
  (forall t s e, t <> "" -> P (mk_event t s e)) ->
  for_each (component_step TZ rrulestr between START END) comps events
  = Ok events' ->
  Forall P events -> Forall P events'.
Proof.
  intros HP. revert events. induction comps as [|comp comps IH];
    intros events H Hev; simpl in H.
  - now injection H as <-.
  - destruct (component_step TZ rrulestr between START END events comp)
      as [ev1|e] eqn:E; [|discriminate].
    cbn [bind] in H. apply (IH ev1 H).
    destruct (step_appends _ _ _ E) as [emitted [-> _]].
    apply Forall_app. split; [assumption|].
    apply Forall_forall. intros ev Hin. apply in_map_iff in Hin.
    destruct Hin as [p [<- _]]. apply HP. apply title_of_not_empty.
Qed.

(** X7. The list [_parse_ics] returns is in ascending order of the
    start strings; it holds the collected occurrences, each as often as
    it was collected, and occurrences with the same start keep the order
    in which they were collected. *)
Theorem parse_result_is_sorted (raw : bytes) (evs : list event) :
  _parse_ics TZ from_ical rrulestr between START END raw = Ok evs ->
  Sorted start_le evs
  /\ exists comps collected,
      from_ical (sanitize_ics raw) = Ok comps
      /\ for_each (component_step TZ rrulestr between START END) comps []
         = Ok collected
      /\ Permutation collected evs
      /\ forall k, with_start k evs = with_start k collected.
Proof.
  unfold _parse_ics. intros H.
  destruct (from_ical (sanitize_ics raw)) as [comps|]; [|discriminate].
  cbn [bind] in H.
  destruct (for_each _ comps []) as [collected|] eqn:E; [|discriminate].
  cbn [bind] in H. injection H as <-. split; [apply sort_sorted|].
  exists comps, collected. split; [reflexivity|]. split; [exact E|].
  split; [apply sort_permutation | intros k; apply sort_stable].
Qed.

(** X8. Every occurrence [_parse_ics] returns has a title that is not
    empty and a start and an end that are strings. *)
Theorem parsed_events_are_well_formed (raw : bytes) (evs : list event) :
  _parse_ics TZ from_ical rrulestr between START END raw = Ok evs ->
  Forall well_formed evs.
Proof.
  intros H. destruct (parse_result_is_sorted raw evs H)
    as [_ [comps [collected [_ [Hloop [Hperm _]]]]]].
  apply (Permutation_Forall Hperm).
  apply (loop_appends comps [] collected well_formed); [|assumption|constructor].
  intros t s e Ht. unfold well_formed, mk_event. simpl.
  repeat split; [assumption | discriminate | discriminate].
Qed.

(** The body passes over a component without usable times. *)
Lemma step_unusable (events : list event) (comp : vevent) :
  usable TZ comp = false ->
  component_step TZ rrulestr between START END events comp = Ok events.
Proof.
  unfold usable, normalized_times, component_step.
  destruct (dtstart comp) as [ds|]; [|reflexivity].
  destruct (_norm TZ ds) as [s1|].
  - destruct (match dtend comp with
              | Some de => _norm TZ de
              | None => Some (dt_add s1 (timedelta_hours 1))
              end); [discriminate | reflexivity].
  - destruct (dtend comp) as [de|]; [destruct (_norm TZ de)|]; reflexivity.
Qed.

Lemma loop_skips_unusable (comps : list vevent) (events : list event) :
  for_each (component_step TZ rrulestr between START END) comps events
  = for_each (component_step TZ rrulestr between START END)
             (filter (usable TZ) comps) events.
Proof.
  revert events. induction comps as [|comp comps IH]; intros events;
    [reflexivity|].
  cbn [for_each filter]. destruct (usable TZ comp) eqn:E.
  - cbn [for_each].
    destruct (component_step TZ rrulestr between START END events comp);
      [cbn [bind]; apply IH | reflexivity].
  - rewrite (step_unusable events comp E). cbn [bind]. apply IH.
Qed.

(** X9. Components without a [DTSTART], or whose start or end is
    neither a date nor a datetime, count for nothing: a feed resolves as
    the feed without them. *)
Theorem unusable_components_are_skipped
        (raw raw' : bytes) (comps : list vevent) :
  from_ical (sanitize_ics raw) = Ok comps ->
  from_ical (sanitize_ics raw') = Ok (filter (usable TZ) comps) ->
  _parse_ics TZ from_ical rrulestr between START END raw
  = _parse_ics TZ from_ical rrulestr between START END raw'.
Proof.
  intros H H'. unfold _parse_ics. rewrite H, H'. cbn [bind].
  now rewrite loop_skips_unusable.
Qed.

(** X11. A component without [DTEND] is resolved as the same component
    ending one hour after its normalised start. *)
Theorem missing_end_is_one_hour
        (events : list event) (comp : vevent) (ds : dtvalue) (s1 : aware) :
  dtstart comp = Some ds -> dtend comp = None -> _norm TZ ds = Some s1 ->
  component_step TZ rrulestr between START END events comp
  = component_step TZ rrulestr between START END events
      (mk_vevent (summary comp) (dtstart comp)
                 (Some (DDatetime (Aware (dt_add s1 (timedelta_hours 1)))))
                 (rrule comp)).
Proof.
  intros Hs He Hn. unfold component_step, title_of.
  cbn [summary dtstart dtend rrule]. rewrite Hs, He, Hn.
  assert (Hz : tz_is (tzinfo_of s1) TZ = true)
    by (destruct (norm_lands_in_the_reference_zone TZ ds s1 Hn); assumption).
  assert (E : _norm TZ (DDatetime (Aware (dt_add s1 (timedelta_hours 1))))
              = Some (dt_add s1 (timedelta_hours 1))).
  { simpl. unfold astimezone. cbn [dt_add tzinfo_of].
    now rewrite tz_is_sym, Hz. }
  now rewrite E.
Qed.

(** *** The rule text *)

Lemma parts_loop (rr : list (string * list string)) (parts : list string) :
  fold_left rrule_part_step rr parts
  = parts ++ map rule_part (filter recognized rr).
Proof.
  revert parts. induction rr as [|[k v] rr IH]; intros parts.
  - simpl. now rewrite app_nil_r.
  - cbn [fold_left filter]. rewrite IH. unfold rrule_part_step, recognized.
    cbn [fst]. destruct (in_valid_props (PyStr.upper k)); cbn [negb map].
    + now rewrite <- app_assoc.
    + reflexivity.
Qed.

Lemma filter_idem {A : Type} (f : A -> bool) (l : list A) :
  filter f (filter f l) = filter f l.
Proof.
  induction l as [|x l IH]; [reflexivity|]. simpl.
  destruct (f x) eqn:E; simpl; [rewrite E|]; now rewrite ?IH.
Qed.

(** X12. The rule handed to the evaluator is made of the recognized
    parts only, [KEY=V,V] each, in their order and spelling; the parts
    outside the allow-list do not count: the rule expands as the rule
    without them. *)
Theorem unknown_rule_parts_are_dropped
        (t : string) (s1 e1 : aware) (rr : list (string * list string))
        (events : list event) :
  fold_left rrule_part_step rr [] = map rule_part (filter recognized rr)
  /\ expand TZ rrulestr between START END t s1 e1 rr events
     = expand TZ rrulestr between START END t s1 e1
              (filter recognized rr) events.
Proof.
  split; [apply (parts_loop rr [])|].
  unfold expand. rewrite !parts_loop. now rewrite filter_idem.
Qed.

(** X13. Every occurrence one component adds to the result passed the
    window test: its start is <= END and its end is >= START, also when
    the rule evaluator returns starts outside the bounds it was given. *)
Theorem appended_occurrences_are_in_the_window
        (events events' : list event) (comp : vevent) :
  component_step TZ rrulestr between START END events comp = Ok events' ->
  exists emitted : list (aware * aware),
    events' = events
              ++ map (fun p => mk_event (title_of comp) (fst p) (snd p)) emitted
    /\ Forall (fun p => dt_le (fst p) END = true /\ dt_ge (snd p) START = true)
              emitted.
Proof.
  intros H. destruct (step_appends events events' comp H) as [emitted [E Hw]].
  exists emitted. split; [assumption|].
  eapply Forall_impl; [|exact Hw]. intros p Hp. unfold in_window in Hp.
  now apply andb_true_iff in Hp.
Qed.

End Loop.

Lemma parse_result_is_sorted_witness :
  Sorted start_le [standup_event; retro_event]
  /\ exists comps collected,
      ICalModel.from_ical (sanitize_ics unordered_feed) = Ok comps
      /\ for_each (component_step America_Sao_Paulo daily_rrulestr
                                  ICalModel.between day_start day_end)
                  comps [] = Ok collected
      /\ Permutation collected [standup_event; retro_event]
      /\ forall k, with_start k [standup_event; retro_event]
                   = with_start k collected.
Proof.
  apply (parse_result_is_sorted
           America_Sao_Paulo ICalModel.from_ical ICalModel.series
           daily_rrulestr ICalModel.between day_start day_end
           unordered_feed).
  vm_compute. reflexivity.
Defined.

Lemma parsed_events_are_well_formed_witness :
  Forall well_formed [standup_event; retro_event].
Proof.
  apply (parsed_events_are_well_formed
           America_Sao_Paulo ICalModel.from_ical ICalModel.series
           daily_rrulestr ICalModel.between day_start day_end
           unordered_feed).
  vm_compute. reflexivity.
Defined.

Lemma unusable_components_are_skipped_witness :
  _parse_ics America_Sao_Paulo ICalModel.from_ical daily_rrulestr
             ICalModel.between day_start day_end feed_with_startless_event
  = _parse_ics America_Sao_Paulo ICalModel.from_ical daily_rrulestr
               ICalModel.between day_start day_end standup_feed.
Proof.
  apply (unusable_components_are_skipped
           America_Sao_Paulo ICalModel.from_ical ICalModel.series
           daily_rrulestr ICalModel.between day_start day_end
           feed_with_startless_event standup_feed [startless; standup]).
  - vm_compute. reflexivity.
  - vm_compute. reflexivity.
Defined.

Lemma missing_end_is_one_hour_witness :
  component_step America_Sao_Paulo daily_rrulestr ICalModel.between
                 day_start day_end [] standup_open_end
  = component_step America_Sao_Paulo daily_rrulestr ICalModel.between
                   day_start day_end []
      (mk_vevent (summary standup_open_end) (dtstart standup_open_end)
         (Some (DDatetime
                  (Aware (dt_add (replace_tzinfo
                                    (naive_of_fields 2025 9 19 11 0 0)
                                    America_Sao_Paulo)
                                 (timedelta_hours 1)))))
         (rrule standup_open_end)).
Proof.
  apply (missing_end_is_one_hour
           America_Sao_Paulo ICalModel.series daily_rrulestr
           ICalModel.between day_start day_end [] standup_open_end
           (utc_datetime 2025 9 19 14 0 0)).
  - reflexivity.
  - reflexivity.
  - reflexivity.
Defined.

Lemma appended_occurrences_are_in_the_window_witness :
  exists emitted : list (aware * aware),
    daily_events
    = [] ++ map (fun p => mk_event (title_of daily) (fst p) (snd p)) emitted
    /\ Forall (fun p => dt_le (fst p) week_end = true
                        /\ dt_ge (snd p) week_start = true) emitted.
Proof.
  apply (appended_occurrences_are_in_the_window
           America_Sao_Paulo ICalModel.series daily_rrulestr
           ICalModel.between week_start week_end [] daily_events daily).
  vm_compute. reflexivity.
Defined.

(** *** The driver *)

Section Answer.
Variable TZ : tzinfo.
Variable from_ical : bytes -> result (list vevent).
Variable rule : Type.
Variable rrulestr : string -> result rule.
Variable between : rule -> aware -> aware -> result (list pydatetime).
Variable ics_src : option string.
Variable token : option string.
Variable requests_get : string -> result response.
Variable read_file : string -> result bytes.
Variable calendar_api : string -> string -> string -> result api_response.
Variables START END : aware.

(** X14. A primary feed that is fetched or read and parsed is the
    whole answer, whatever the token and the Calendar API: also a
    calendar without any event in the window answers with the empty
    list, and the fallback is not asked. *)
Theorem parsed_primary_is_the_answer (src : string) (evs : list event) :
  ics_src = Some src -> PyStr.truthy src = true ->
  (is_url src = false
   /\ exists raw, read_file src = Ok raw
                  /\ _parse_ics TZ from_ical rrulestr between START END raw
                     = Ok evs)
  \/ (is_url src = true
      /\ exists resp, requests_get src = Ok resp
                      /\ resp_ok resp = true
                      /\ calendar_type (resp_content_type resp) = true
                      /\ _parse_ics TZ from_ical rrulestr between START END
                                    (resp_content resp) = Ok evs) ->
  gcal_events TZ from_ical rrulestr between ics_src token requests_get
              read_file calendar_api START END = Ok evs.
Proof.
  intros -> Ht H. apply usable_primary_is_returned.
  unfold primary, ics_attempt. rewrite Ht.
  unfold is_url, calendar_type in H.
  destruct H as [[Hu [raw [Hr Hp]]] | [Hu [resp [Hg [Hok [Hct Hp]]]]]];
    rewrite Hu.
  - rewrite Hr. cbn [bind]. now rewrite Hp.
  - rewrite Hg. cbn [bind]. now rewrite Hok, Hct, Hp.
Qed.

(** What step 1 returns was parsed from some bytes. *)
Lemma primary_was_parsed (evs : list event) :
  primary TZ from_ical rrulestr between ics_src requests_get read_file
          START END = Some evs ->
  exists raw, _parse_ics TZ from_ical rrulestr between START END raw = Ok evs.
Proof.
  unfold primary, ics_attempt.
  destruct ics_src as [src|]; [|discriminate].
  destruct (PyStr.truthy src); [|discriminate].
  destruct (PyStr.startswith src "http://" || PyStr.startswith src "https://").
  - destruct (requests_get src) as [resp|]; [|discriminate]. cbn [bind].
    destruct (resp_ok resp); [|discriminate]. cbn [negb].
    destruct (PyStr.contains _ _); [|discriminate]. cbn [negb].
    destruct (_parse_ics TZ from_ical rrulestr between START END
                         (resp_content resp)) as [evs'|] eqn:E;
      [|discriminate].
    cbn [bind]. intros H. injection H as <-. eauto.
  - destruct (read_file src) as [raw|]; [|discriminate]. cbn [bind].
    destruct (_parse_ics TZ from_ical rrulestr between START END raw)
      as [evs'|] eqn:E; [|discriminate].
    cbn [bind]. intros H. injection H as <-. eauto.
Qed.

(** X15. [gcal_events] raises only what the Calendar API request or the
    decoding of its answer raises, and only when a token is set: nothing
    the primary feed does can make it raise. *)
Theorem only_the_fallback_can_raise (e : exn) :
  gcal_events TZ from_ical rrulestr between ics_src token requests_get
              read_file calendar_api START END = Raise e ->
  exists tok,
    token = Some tok /\ PyStr.truthy tok = true
    /\ (calendar_api tok (to_iso_z START) (to_iso_z END) = Raise e
        \/ exists r, calendar_api tok (to_iso_z START) (to_iso_z END) = Ok r
                     /\ api_ok r = true /\ api_items r = Raise e).
Proof.
  unfold gcal_events. destruct (primary _ _ _ _ _ _ _ _ _); [discriminate|].
  destruct token as [tok|]; [|discriminate].
  destruct (PyStr.truthy tok) eqn:Et; [|discriminate].
  unfold fallback. intros H. exists tok. split; [reflexivity|].
  split; [exact Et|].
  destruct (calendar_api tok (to_iso_z START) (to_iso_z END)) as [r|e0].
  - right. exists r. split; [reflexivity|]. cbn [bind] in H.
    destruct (api_ok r); [|discriminate]. split; [reflexivity|].
    cbn [negb] in H. destruct (api_items r); [discriminate|].
    cbn [bind] in H. now injection H as ->.
  - left. cbn [bind] in H. now injection H as ->.
Qed.

Lemma event_of_item_title (ev : api_item) : title (event_of_item ev) <> "".
Proof.
  unfold event_of_item. simpl. destruct (item_summary ev) as [s|];
    [|discriminate]. destruct s; simpl; discriminate.
Qed.

(** X16. Every occurrence [gcal_events] returns, from the feed or from
    the Calendar API, has a title that is not empty. *)
Theorem returned_titles_are_not_empty (evs : list event) :
  gcal_events TZ from_ical rrulestr between ics_src token requests_get
              read_file calendar_api START END = Ok evs ->
  Forall (fun ev => title ev <> "") evs.
Proof.
  unfold gcal_events.
  destruct (primary _ _ _ _ _ _ _ _ _) as [evs'|] eqn:Ep.
  - intros H. injection H as <-.
    destruct (primary_was_parsed evs' Ep) as [raw Hraw].
    pose proof (parsed_events_are_well_formed
                  TZ from_ical rule rrulestr between START END raw evs' Hraw)
      as Hwf.
    eapply Forall_impl; [|exact Hwf]. unfold well_formed. tauto.
  - assert (Hnil : Ok [] = Ok evs -> Forall (fun ev => title ev <> "") evs)
      by (intros H; injection H as <-; constructor).
    destruct token as [tok|]; [|exact Hnil].
    destruct (PyStr.truthy tok); [|exact Hnil].
    unfold fallback.
    destruct (calendar_api tok (to_iso_z START) (to_iso_z END)) as [r|];
      [|discriminate].
    cbn [bind]. destruct (api_ok r); cbn [negb]; [|exact Hnil].
    destruct (api_items r) as [items|]; [|discriminate].
    cbn [bind]. rewrite (api_loop items []). intros H. injection H as <-.
    apply Forall_forall. intros ev Hin. apply in_map_iff in Hin.
    destruct Hin as [it [<- _]]. apply event_of_item_title.
Qed.

End Answer.

Lemma parsed_primary_is_the_answer_witness :
  gcal_events America_Sao_Paulo ICalModel.from_ical daily_rrulestr
              ICalModel.between (Some ics_path) (Some "ya29.token")
              no_server one_file api_server day_start day_end
  = Ok [].
Proof.
  apply (parsed_primary_is_the_answer
           America_Sao_Paulo ICalModel.from_ical ICalModel.series
           daily_rrulestr ICalModel.between (Some ics_path)
           (Some "ya29.token") no_server one_file api_server
           day_start day_end ics_path []).
  - reflexivity.
  - reflexivity.
  - left. split; [reflexivity|]. exists empty_calendar.
    split; [reflexivity | vm_compute; reflexivity].
Defined.

Lemma only_the_fallback_can_raise_witness :
  exists tok,
    Some "ya29.token" = Some tok /\ PyStr.truthy tok = true
    /\ (api_down tok (to_iso_z day_start) (to_iso_z day_end) = Raise OtherError
        \/ exists r, api_down tok (to_iso_z day_start) (to_iso_z day_end) = Ok r
                     /\ api_ok r = true /\ api_items r = Raise OtherError).
Proof.
  apply (only_the_fallback_can_raise
           America_Sao_Paulo ICalModel.from_ical ICalModel.series
           daily_rrulestr ICalModel.between None (Some "ya29.token")
           no_server no_files api_down day_start day_end OtherError).
  reflexivity.
Defined.

Lemma returned_titles_are_not_empty_witness :
  Forall (fun ev => title ev <> "") api_events.
Proof.
  apply (returned_titles_are_not_empty
           America_Sao_Paulo ICalModel.from_ical ICalModel.series
           daily_rrulestr ICalModel.between (Some feed_url)
           (Some "ya29.token") html_server no_files api_server
           day_start day_end api_events).
  reflexivity.
Defined.

End CalendarMore.

(* ================================================================== *)
(** ** The GitHub and Jira clients: properties *)
(* ================================================================== *)

Module ClientsMore.
Import PyUStr Json Exn GitHub Jira ClientWords.
Open Scope Z_scope.

(** *** Strings and loops *)

Lemma ustr_eqb_eq (a c : ustr) : PyUStr.eqb a c = true <-> a = c.
Proof.
  revert c. induction a as [|x a IH]; intros [|y c]; simpl.
  - tauto.
  - split; discriminate.
  - split; discriminate.
  - rewrite andb_true_iff, Z.eqb_eq, IH. split.
    + intros [Hx Ha]. now subst.
    + intros H. inversion H. auto.
Qed.

Lemma usplit_app (a c : ustr) (sep : Z) :
  PyUStr.split (a ++ sep :: c) sep
  = PyUStr.split a sep ++ PyUStr.split c sep.
Proof.
  induction a as [|x a IH]; simpl.
  - now rewrite Z.eqb_refl.
  - destruct (x =? sep); [now rewrite IH|].
    rewrite IH. destruct (PyUStr.split a sep) as [|l ls] eqn:E.
    + exfalso. destruct a as [|y a']; simpl in E; [discriminate|].
      destruct (y =? sep); [discriminate|].
      destruct (PyUStr.split a' sep); discriminate.
    + reflexivity.
Qed.

Lemma for_each_keep_invariant {S X : Type} (P : S -> Prop)
      (step : S -> X -> result S) :
  (forall st x st', P st -> step st x = Ok st' -> P st') ->
  forall xs st, P st -> P (fst (for_each_keep step xs st)).
Proof.
  intros Hstep. induction xs as [|x xs IH]; intros st Hst; simpl.
  - assumption.
  - destruct (step st x) as [st'|e] eqn:E; [|assumption].
    apply IH. now apply (Hstep st x).
Qed.

Lemma for_each_invariant {S X : Type} (P : S -> Prop)
      (step : S -> X -> result S) :
  (forall st x st', P st -> step st x = Ok st' -> P st') ->
  forall xs st st', P st -> for_each step xs st = Ok st' -> P st'.
Proof.
  intros Hstep. induction xs as [|x xs IH]; intros st st' Hst H; simpl in H.
  - now injection H as <-.
  - destruct (step st x) as [st1|e] eqn:E; [|discriminate].
    cbn [bind] in H. apply (IH st1 st'); [|assumption].
    now apply (Hstep st x).
Qed.

(** *** [github_prs] *)

Section GitHubClient.
Variable token : option ustr.
Variable repo_check : ustr -> result Z.
Variable search : ustr -> Z -> result http_response.

Lemma item_step_dict (repo : ustr) (prs : list pr) (item : json) :
  is_dict item = true ->
  GitHub.item_step repo prs item = Ok (prs ++ [pr_of repo item]).
Proof. destruct item; try discriminate. reflexivity. Qed.

Lemma item_step_not_dict (repo : ustr) (prs : list pr) (item : json) :
  is_dict item = false ->
  GitHub.item_step repo prs item = Raise OtherError.
Proof. destruct item; try discriminate; reflexivity. Qed.

Lemma item_step_appends (repo : ustr) (prs prs' : list pr) (item : json) :
  GitHub.item_step repo prs item = Ok prs' ->
  prs' = prs ++ [pr_of repo item].
Proof.
  destruct item; try discriminate. unfold GitHub.item_step. cbn.
  intros H. injection H as <-. reflexivity.
Qed.

(** What the block for one repository leaves in [prs]: what was there,
    then pull requests of that repository. *)
Lemma try_repo_appends (repo : ustr) (since : Z) (prs : list pr) :
  exists added,
    fst (try_repo repo_check search repo since prs) = prs ++ added
    /\ added = fst (try_repo repo_check search repo since [])
    /\ Forall (fun p => pr_repo p = repo) added.
Proof.
  assert (Hloop : forall items acc,
             exists added,
               fst (for_each_keep (GitHub.item_step repo) items acc)
               = acc ++ added
               /\ added = fst (for_each_keep (GitHub.item_step repo) items [])
               /\ Forall (fun p => pr_repo p = repo) added).
  { induction items as [|item items IH]; intros acc.
    - exists []. simpl. rewrite app_nil_r. repeat split. constructor.
    - simpl. destruct (is_dict item) eqn:Hd.
      + rewrite !(item_step_dict repo _ item Hd).
        destruct (IH (acc ++ [pr_of repo item])) as [a1 [H1 [H2 H3]]].
        destruct (IH ([] ++ [pr_of repo item])) as [a2 [H4 [H5 H6]]].
        exists (pr_of repo item :: a1). split; [|split].
        * rewrite H1. now rewrite <- app_assoc.
        * rewrite H4. simpl. f_equal. congruence.
        * constructor; [reflexivity | assumption].
      + rewrite !(item_step_not_dict repo _ item Hd).
        exists []. simpl. rewrite app_nil_r. repeat split. constructor. }
  assert (Hnone : exists added : list pr,
             prs = prs ++ added /\ added = []
             /\ Forall (fun p => pr_repo p = repo) added).
  { exists []. rewrite app_nil_r. repeat split. constructor. }
  unfold try_repo. destruct (repo_check repo) as [code|e]; [|exact Hnone].
  destruct (code =? 404); [exact Hnone|].
  destruct (negb (code =? 200)); [exact Hnone|].
  destruct (search repo since) as [resp|e]; [|exact Hnone].
  destruct (status_code resp =? 200); [|exact Hnone].
  destruct (data <- body resp;;
            items <- get data (u "items") (JList []);; iter items)
    as [items|e]; [|exact Hnone].
  apply Hloop.
Qed.

Lemma repo_step_appends (since : Z) (prs : list pr) (repo0 : ustr) :
  repo_step repo_check search since prs repo0
  = prs ++ repo_step repo_check search since [] repo0.
Proof.
  unfold repo_step. destruct (negb (PyUStr.truthy (PyUStr.strip repo0))).
  - now rewrite app_nil_r.
  - destruct (try_repo_appends (PyUStr.strip repo0) since prs)
      as [added [H1 [H2 _]]].
    rewrite H1. now rewrite H2.
Qed.

Lemma repos_loop (since : Z) (repos : list ustr) (prs : list pr) :
  fold_left (repo_step repo_check search since) repos prs
  = prs ++ List.concat
             (map (repo_step repo_check search since []) repos).
Proof.
  revert prs. induction repos as [|r repos IH]; intros prs; simpl.
  - now rewrite app_nil_r.
  - rewrite IH, repo_step_appends. now rewrite <- app_assoc.
Qed.

(** X17. Repositories do not interfere: the pull requests for the list
    [A,B] are those for [A] followed by those for [B], whatever happens
    with any of the requests. *)
Theorem repositories_are_independent (since until : Z) (a c : ustr) :
  github_prs token (Some (a ++ COMMA :: c)) repo_check search since until
  = github_prs token (Some a) repo_check search since until
    ++ github_prs token (Some c) repo_check search since until.
Proof.
  unfold github_prs. destruct (negb (is_set token)); [reflexivity|].
  cbn [or_empty]. rewrite usplit_app, fold_left_app.
  rewrite (repos_loop since (PyUStr.split c COMMA) (fold_left _ _ _)).
  now rewrite (repos_loop since (PyUStr.split c COMMA) []).
Qed.

(** X18. Every pull request returned names its repository: an entry
    of [GITHUB_REPOS], stripped, and not empty. *)
Theorem pull_requests_name_their_repository
        (repos_env : option ustr) (since until : Z) :
  Forall (fun p =>
            pr_repo p <> []
            /\ exists entry,
                In entry (PyUStr.split (or_empty repos_env) COMMA)
                /\ pr_repo p = PyUStr.strip entry)
         (github_prs token repos_env repo_check search since until).
Proof.
  unfold github_prs. destruct (negb (is_set token)); [constructor|].
  rewrite repos_loop. cbn [app].
  apply Forall_forall. intros p Hp. apply in_concat in Hp.
  destruct Hp as [l [Hl Hp]]. apply in_map_iff in Hl.
  destruct Hl as [entry [<- Hentry]]. unfold repo_step in Hp.
  destruct (PyUStr.truthy (PyUStr.strip entry)) eqn:Et; cbn [negb] in Hp;
    [|contradiction].
  destruct (try_repo_appends (PyUStr.strip entry) since [])
    as [added [H1 [_ H3]]].
  rewrite H1 in Hp. cbn [app] in Hp. rewrite Forall_forall in H3.
  rewrite (H3 p Hp). split.
  - destruct (PyUStr.strip entry); [discriminate | discriminate].
  - exists entry. auto.
Qed.

Lemma items_loop_dicts (repo : ustr) (items : list json) (prs : list pr) :
  Forall (fun x => is_dict x = true) items ->
  for_each_keep (GitHub.item_step repo) items prs
  = (prs ++ map (pr_of repo) items, None).
Proof.
  intros H. revert prs. induction H as [|item items Hi _ IH]; intros prs.
  - simpl. now rewrite app_nil_r.
  - simpl. rewrite (item_step_dict repo prs item Hi). rewrite IH.
    now rewrite <- app_assoc.
Qed.

(** The answer for one repository that is there and whose search
    answers with a list. *)
Lemma single_repository
      (repo : ustr) (since until : Z) (resp : http_response)
      (data : json) (items : list json) :
  is_set token = true ->
  PyUStr.strip repo = repo -> repo <> [] -> ~ In COMMA repo ->
  repo_check repo = Ok 200 ->
  search repo since = Ok resp -> status_code resp = 200 ->
  body resp = Ok data ->
  get data (u "items") (JList []) = Ok (JList items) ->
  github_prs token (Some repo) repo_check search since until
  = fst (for_each_keep (GitHub.item_step repo) items []).
Proof.
  intros Ht Hs Hne Hnin Hc Hsr Hst Hb Hg.
  unfold github_prs. rewrite Ht. cbn [negb or_empty].
  assert (Hsplit : PyUStr.split repo COMMA = [repo]).
  { clear -Hnin. induction repo as [|x r IH]; [reflexivity|]. simpl.
    destruct (x =? COMMA) eqn:E.
    - apply Z.eqb_eq in E. subst. exfalso. apply Hnin. now left.
    - rewrite IH; [reflexivity|]. intros H. apply Hnin. now right. }
  rewrite Hsplit. cbn [fold_left]. unfold repo_step. rewrite Hs.
  destruct repo as [|x r]; [congruence|]. cbn [PyUStr.truthy negb].
  unfold try_repo. rewrite Hc.
  replace (200 =? 404) with false by reflexivity.
  replace (200 =? 200) with true by reflexivity. cbn [negb].
  rewrite Hsr, Hst.
  replace (200 =? 200) with true by reflexivity.
  rewrite Hb. cbn [bind]. rewrite Hg. cbn [bind iter]. reflexivity.
Qed.

(** X19. When the repository is there and the search answers with a
    list of objects, there is exactly one pull request per item, in the
    order of the answer, with the title, URL and state of the item (the
    empty string for a key the item lacks). *)
Theorem one_pull_request_per_item
        (repo : ustr) (since until : Z) (resp : http_response)
        (data : json) (items : list json) :
  is_set token = true ->
  PyUStr.strip repo = repo -> repo <> [] -> ~ In COMMA repo ->
  repo_check repo = Ok 200 ->
  search repo since = Ok resp -> status_code resp = 200 ->
  body resp = Ok data ->
  get data (u "items") (JList []) = Ok (JList items) ->
  Forall (fun x => is_dict x = true) items ->
  github_prs token (Some repo) repo_check search since until
  = map (pr_of repo) items.
Proof.
  intros Ht Hs Hne Hnin Hc Hsr Hst Hb Hg Hd.
  rewrite (single_repository repo since until resp data items);
    try assumption.
  now rewrite items_loop_dicts.
Qed.

Lemma items_loop_stops (repo : ustr) (good rest : list json) (bad : json)
      (prs : list pr) :
  Forall (fun x => is_dict x = true) good -> is_dict bad = false ->
  for_each_keep (GitHub.item_step repo) (good ++ bad :: rest) prs
  = (prs ++ map (pr_of repo) good, Some OtherError).
Proof.
  intros H Hbad. revert prs. induction H as [|item good Hi _ IH]; intros prs.
  - simpl. rewrite (item_step_not_dict repo prs bad Hbad).
    now rewrite app_nil_r.
  - simpl. rewrite (item_step_dict repo prs item Hi). rewrite IH.
    now rewrite <- app_assoc.
Qed.

(** X25. Pull requests are kept up to the first item of the answer
    that is not an object: the items before it are returned, it and all
    the items after it are lost, and nothing is raised. *)
Theorem pull_requests_up_to_the_first_bad_item
        (repo : ustr) (since until : Z) (resp : http_response)
        (data : json) (good rest : list json) (bad : json) :
  is_set token = true ->
  PyUStr.strip repo = repo -> repo <> [] -> ~ In COMMA repo ->
  repo_check repo = Ok 200 ->
  search repo since = Ok resp -> status_code resp = 200 ->
  body resp = Ok data ->
  get data (u "items") (JList []) = Ok (JList (good ++ bad :: rest)) ->
  Forall (fun x => is_dict x = true) good -> is_dict bad = false ->
  github_prs token (Some repo) repo_check search since until
  = map (pr_of repo) good.
Proof.
  intros Ht Hs Hne Hnin Hc Hsr Hst Hb Hg Hd Hbad.
  rewrite (single_repository repo since until resp data
             (good ++ bad :: rest)); try assumption.
  now rewrite items_loop_stops.
Qed.

End GitHubClient.

Lemma one_pull_request_per_item_witness :
  github_prs (Some (u "ghp_token")) (Some (u "org/api"))
             check_example search_example 20350 20350
  = map (pr_of (u "org/api")) [one_pr "Fix"].
Proof.
  apply (one_pull_request_per_item
           (Some (u "ghp_token")) check_example search_example
           (u "org/api") 20350 20350
           (mk_http_response 200 (Ok (JDict [(u "items", JList [one_pr "Fix"])])))
           (JDict [(u "items", JList [one_pr "Fix"])])
           [one_pr "Fix"]).
  - reflexivity.
  - reflexivity.
  - discriminate.
  - vm_compute. intuition discriminate.
  - reflexivity.
  - reflexivity.
  - reflexivity.
  - reflexivity.
  - reflexivity.
  - repeat constructor.
Defined.

(** What the example servers give: the malformed item of [org/web]
    loses the item after it and nothing else. *)
Lemma github_example :
  github_prs (Some (u "ghp_token")) (Some (u " org/web , ,org/gone,org/api"))
             check_example search_example 20350 20350
  = [pr_of (u "org/web") (one_pr "Add"); pr_of (u "org/api") (one_pr "Fix")].
Proof. vm_compute. reflexivity. Qed.

(** *** [jira_issues] and [jira_enhanced_status] *)

Section JiraClient.
Variable base_url : option ustr.
Variable email : option ustr.
Variable token : option ustr.
Variable search_range : Z -> Z -> result http_response.
Variable search_status : result http_response.
Variable search_moved : Z -> result http_response.
Variable changelog : json -> result http_response.
Variable ymd : Z -> ustr.

Lemma get_is_dict (x : json) (k : ustr) (d v : json) :
  get x k d = Ok v -> is_dict x = true.
Proof. destruct x; try discriminate. reflexivity. Qed.

Lemma legacy_step_appends (issues issues' : list issue_row) (issue : json) :
  legacy_step issues issue = Ok issues' ->
  is_dict issue = true
  /\ exists row, issues' = issues ++ [row].
Proof.
  unfold legacy_step. intros H.
  destruct (get issue (u "key") (JStr [])) as [k|] eqn:Ek; [|discriminate].
  split; [exact (get_is_dict _ _ _ _ Ek)|]. cbn [bind] in H.
  destruct (field issue (u "summary")); [|discriminate]. cbn [bind] in H.
  destruct (status_name_of issue); [|discriminate]. cbn [bind] in H.
  destruct (field issue (u "updated")); [|discriminate]. cbn [bind] in H.
  injection H as <-. eauto.
Qed.

Lemma legacy_loop (items : list json) (acc rows : list issue_row) :
  for_each legacy_step items acc = Ok rows ->
  Forall (fun x => is_dict x = true) items
  /\ List.length rows = (List.length acc + List.length items)%nat.
Proof.
  revert acc. induction items as [|x items IH]; intros acc H; simpl in H.
  - injection H as <-. split; [constructor | simpl; lia].
  - destruct (legacy_step acc x) as [acc'|] eqn:E; [|discriminate].
    cbn [bind] in H. destruct (legacy_step_appends _ _ _ E) as [Hd [row ->]].
    destruct (IH _ H) as [Hall Hlen]. split; [now constructor|].
    rewrite Hlen, length_app. simpl. lia.
Qed.

(** X20. [jira_issues] is all or nothing: it returns either the empty
    list or one row for each issue of the answer, and then every issue
    of the answer is an object; one issue that is not loses them all. *)
Theorem jira_issues_all_or_nothing
        (since until : Z) (rows : list issue_row) :
  jira_issues base_url email token search_range since until = Ok rows ->
  rows = []
  \/ exists resp data xs items,
      search_range since until = Ok resp
      /\ status_code resp = 200
      /\ body resp = Ok data
      /\ get data (u "issues") (JList []) = Ok xs
      /\ iter xs = Ok items
      /\ Forall (fun x => is_dict x = true) items
      /\ List.length rows = List.length items.
Proof.
  unfold jira_issues.
  destruct (negb (configured base_url email token));
    [intros H; injection H as <-; now left|].
  destruct (negb (credentials_encodable email token)); [discriminate|].
  unfold legacy_attempt.
  destruct (search_range since until) as [resp|] eqn:Es; cbn [bind];
    [|intros H; injection H as <-; now left].
  destruct (status_code resp =? 200) eqn:Ec;
    [|intros H; injection H as <-; now left].
  apply Z.eqb_eq in Ec.
  destruct (body resp) as [data|] eqn:Eb; cbn [bind];
    [|intros H; injection H as <-; now left].
  destruct (get data (u "issues") (JList [])) as [xs|] eqn:Eg; cbn [bind];
    [|intros H; injection H as <-; now left].
  destruct (iter xs) as [items|] eqn:Ei; cbn [bind];
    [|intros H; injection H as <-; now left].
  destruct (for_each legacy_step items []) as [issues|] eqn:El; cbn [bind];
    [|intros H; injection H as <-; now left].
  intros H. injection H as <-. right.
  destruct (legacy_loop _ _ _ El) as [Hd Hlen].
  exists resp, data, xs, items. repeat split; assumption.
Qed.

(** X21. Neither Jira function lets a failure of the server through:
    each raises exactly when the credentials are set and cannot be
    encoded, before any request is made, and what it raises is the
    [ValueError] of the encoding. *)
Theorem jira_raises_only_on_credentials (since until target : Z) (e : exn) :
  (jira_issues base_url email token search_range since until = Raise e
   <-> configured base_url email token = true
       /\ credentials_encodable email token = false
       /\ e = ValueError)
  /\ (jira_enhanced_status base_url email token search_status search_moved
                           changelog ymd target = Raise e
      <-> configured base_url email token = true
          /\ credentials_encodable email token = false
          /\ e = ValueError).
Proof.
  unfold jira_issues, jira_enhanced_status.
  destruct (configured base_url email token);
    destruct (credentials_encodable email token); cbn [negb].
  - split.
    + split; [|intros [_ [H _]]; discriminate].
      destruct (legacy_attempt search_range since until) as [[r|]|];
        discriminate.
    + split; [|intros [_ [H _]]; discriminate].
      destruct (status_part search_status) as [rows [x|]]; discriminate.
  - split; (split; [intros H; injection H as <-; auto
                   | intros [_ [_ ->]]; reflexivity]).
  - split; (split; [discriminate | intros [H _]; discriminate]).
  - split; (split; [discriminate | intros [H _]; discriminate]).
Qed.

Lemma status_step_tracked (rows rows' : list issue_row) (issue : json) :
  Forall (fun row => among (row_status row) tracked_statuses = true) rows ->
  status_step rows issue = Ok rows' ->
  Forall (fun row => among (row_status row) tracked_statuses = true) rows'.
Proof.
  unfold status_step. intros Hrows H.
  destruct (status_name_of issue) as [name|]; [|discriminate].
  cbn [bind] in H. destruct (among name tracked_statuses) eqn:Ea.
  - destruct (get issue (u "key") (JStr [])); [|discriminate].
    cbn [bind] in H. destruct (field issue (u "summary")); [|discriminate].
    cbn [bind] in H. destruct (field issue (u "updated")); [|discriminate].
    cbn [bind] in H. injection H as <-.
    apply Forall_app. split; [assumption|]. constructor; [exact Ea|constructor].
  - now injection H as <-.
Qed.

Lemma status_part_tracked :
  Forall (fun row => among (row_status row) tracked_statuses = true)
         (fst (status_part search_status)).
Proof.
  unfold status_part. destruct search_status as [resp|]; [|constructor].
  destruct (status_code resp =? 200); [|constructor].
  destruct (data <- body resp;;
            xs <- get data (u "issues") (JList []);; iter xs)
    as [items|]; [|constructor].
  apply for_each_keep_invariant; [|constructor].
  intros st x st' Hst H. exact (status_step_tracked st st' x Hst H).
Qed.

(** X22. Every row of [current_status] has one of the three tracked
    statuses, Em andamento, Em análise or Revisar, as a string. *)
Theorem current_status_is_tracked (target : Z) (r : status_report) :
  jira_enhanced_status base_url email token search_status search_moved
                       changelog ymd target = Ok r ->
  Forall (fun row => exists name,
              row_status row = JStr name /\ In name tracked_statuses)
         (current_status r).
Proof.
  intros H.
  assert (Ht : Forall (fun row => among (row_status row) tracked_statuses = true)
                      (current_status r)).
  { unfold jira_enhanced_status in H.
    destruct (negb (configured base_url email token));
      [injection H as <-; constructor|].
    destruct (negb (credentials_encodable email token)); [discriminate|].
    pose proof status_part_tracked as Hp.
    destruct (status_part search_status) as [rows [x|]];
      injection H as <-; exact Hp. }
  eapply Forall_impl; [|exact Ht]. intros row Hrow.
  unfold among in Hrow. apply existsb_exists in Hrow.
  destruct Hrow as [name [Hin Hs]]. unfold is_str in Hs.
  destruct (row_status row) as [| | | |s| |]; try discriminate.
  apply ustr_eqb_eq in Hs. subst. eauto.
Qed.

Lemma change_step_dated (day : ustr) (history : json) (s : ustr)
      (changes changes' : list change) (item : json) :
  get history (u "created") (JStr []) = Ok (JStr s) ->
  firstn 10 s = day ->
  Forall (dated day) changes ->
  change_step history changes item = Ok changes' ->
  Forall (dated day) changes'.
Proof.
  unfold change_step. intros Hc Hs Hall H.
  destruct (get item (u "field") JNull) as [f|]; [|discriminate].
  cbn [bind] in H. destruct (is_str f (u "status")).
  - destruct (get item (u "fromString") (JStr [])); [|discriminate].
    cbn [bind] in H.
    destruct (get item (u "toString") (JStr [])); [|discriminate].
    cbn [bind] in H. rewrite Hc in H. cbn [bind] in H. injection H as <-.
    apply Forall_app. split; [assumption|].
    constructor; [|constructor]. exists s. auto.
  - now injection H as <-.
Qed.

Lemma history_step_dated (target : Z) (changes changes' : list change)
      (history : json) :
  Forall (dated (ymd target)) changes ->
  history_step ymd target changes history = Ok changes' ->
  Forall (dated (ymd target)) changes'.
Proof.
  unfold history_step. intros Hall H.
  destruct (get history (u "created") (JStr [])) as [created|] eqn:Ec;
    [|discriminate].
  cbn [bind] in H.
  destruct (slice_to created 10) as [change_date|] eqn:Es; [|discriminate].
  cbn [bind] in H.
  destruct (is_str change_date (ymd target)) eqn:Ed;
    [|now injection H as <-].
  destruct created as [| | | |s|l|]; try discriminate.
  2:{ simpl in Es. injection Es as <-. discriminate. }
  simpl in Es. injection Es as <-. simpl in Ed. apply ustr_eqb_eq in Ed.
  destruct (get history (u "items") (JList [])) as [xs|]; [|discriminate].
  cbn [bind] in H. destruct (iter xs) as [items|]; [|discriminate].
  cbn [bind] in H.
  apply (for_each_invariant (Forall (dated (ymd target)))
           (change_step history)) with (xs := items) (st := changes);
    [|assumption|assumption].
  intros st x st' Hst Hx.
  exact (change_step_dated (ymd target) history s st st' x Ec Ed Hst Hx).
Qed.

Lemma moved_step_dated (target : Z) (moves moves' : list movement)
      (issue : json) :
  Forall (fun m => mv_changes m <> []
                   /\ Forall (dated (ymd target)) (mv_changes m)) moves ->
  moved_step changelog ymd target moves issue = Ok moves' ->
  Forall (fun m => mv_changes m <> []
                   /\ Forall (dated (ymd target)) (mv_changes m)) moves'.
Proof.
  unfold moved_step. intros Hall H.
  destruct (get issue (u "key") (JStr [])) as [k|]; [|discriminate].
  cbn [bind] in H. destruct (changelog k) as [hr|]; [|discriminate].
  cbn [bind] in H.
  assert (Hch : forall changes,
             (if status_code hr =? 200
              then history_data <- body hr;;
                   xs <- get history_data (u "values") (JList []);;
                   histories <- iter xs;;
                   for_each (history_step ymd target) histories []
              else Ok []) = Ok changes ->
             Forall (dated (ymd target)) changes).
  { intros changes Hc. destruct (status_code hr =? 200).
    - destruct (body hr) as [hd|]; [|discriminate]. cbn [bind] in Hc.
      destruct (get hd (u "values") (JList [])) as [xs|]; [|discriminate].
      cbn [bind] in Hc. destruct (iter xs) as [hs|]; [|discriminate].
      cbn [bind] in Hc.
      apply (for_each_invariant (Forall (dated (ymd target)))
               (history_step ymd target)) with (xs := hs) (st := []);
        [|constructor|assumption].
      intros st x st' Hst Hx. exact (history_step_dated target st st' x Hst Hx).
    - injection Hc as <-. constructor. }
  destruct (if status_code hr =? 200
            then history_data <- body hr;;
                 xs <- get history_data (u "values") (JList []);;
                 histories <- iter xs;;
                 for_each (history_step ymd target) histories []
            else Ok []) as [changes|]; [|discriminate].
  cbn [bind] in H. specialize (Hch changes eq_refl).
  destruct changes as [|c cs]; [cbv iota in H; now injection H as <-|].
  cbv iota in H. cbn [bind] in H.
  destruct (field issue (u "summary")); [|discriminate].
  cbn [bind] in H. injection H as <-.
  apply Forall_app. split; [assumption|].
  constructor; [|constructor]. simpl. split; [discriminate | assumption].
Qed.

(** X23. Every movement reported has at least one status change, and
    the time of each of its changes is a string that begins with the
    target date. *)
Theorem movements_are_of_the_day (target : Z) (r : status_report) :
  jira_enhanced_status base_url email token search_status search_moved
                       changelog ymd target = Ok r ->
  Forall (fun m => mv_changes m <> []
                   /\ Forall (dated (ymd target)) (mv_changes m))
         (movements r).
Proof.
  unfold jira_enhanced_status. intros H.
  destruct (negb (configured base_url email token));
    [injection H as <-; constructor|].
  destruct (negb (credentials_encodable email token)); [discriminate|].
  destruct (status_part search_status) as [rows [x|]];
    injection H as <-; [constructor|].
  cbn [movements]. unfold moved_part.
  destruct (search_moved target) as [resp|]; [|constructor].
  destruct (status_code resp =? 200); [|constructor].
  destruct (data <- body resp;;
            xs <- get data (u "issues") (JList []);; iter xs)
    as [items|]; [|constructor].
  apply for_each_keep_invariant; [|constructor].
  intros st x st' Hst Hx. exact (moved_step_dated target st st' x Hst Hx).
Qed.

(** X24. When the first request raises, the report is empty and the
    movements are not looked for; when it answers with a status other
    than 200, the open issues are missing but the movements are
    reported. *)
Theorem failed_status_search (target : Z) :
  configured base_url email token = true ->
  credentials_encodable email token = true ->
  (forall e, search_status = Raise e ->
             jira_enhanced_status base_url email token search_status
                                  search_moved changelog ymd target
             = Ok (mk_status_report [] []))
  /\ (forall resp, search_status = Ok resp -> status_code resp <> 200 ->
                   jira_enhanced_status base_url email token search_status
                                        search_moved changelog ymd target
                   = Ok (mk_status_report
                           [] (fst (moved_part search_moved changelog ymd
                                               target)))).
Proof.
  intros Hc He. unfold jira_enhanced_status. rewrite Hc, He. cbn [negb].
  unfold status_part. split.
  - intros e ->. reflexivity.
  - intros resp -> Hs. apply Z.eqb_neq in Hs. now rewrite Hs.
Qed.

End JiraClient.

Lemma jira_issues_all_or_nothing_witness :
  rows_example = []
  \/ exists resp data xs items,
      search_range_example 20350 20350 = Ok resp
      /\ status_code resp = 200
      /\ body resp = Ok data
      /\ get data (u "issues") (JList []) = Ok xs
      /\ iter xs = Ok items
      /\ Forall (fun x => is_dict x = true) items
      /\ List.length rows_example = List.length items.
Proof.
  apply (jira_issues_all_or_nothing
           jira_url jira_email jira_token search_range_example 20350 20350).
  vm_compute. reflexivity.
Defined.

Lemma current_status_is_tracked_witness :
  Forall (fun row => exists name,
              row_status row = JStr name /\ In name tracked_statuses)
         (current_status report_example).
Proof.
  apply (current_status_is_tracked
           jira_url jira_email jira_token (Ok issues_answer)
           search_moved_example changelog_example ymd_of_day 20350).
  vm_compute. reflexivity.
Defined.

Lemma movements_are_of_the_day_witness :
  Forall (fun m => mv_changes m <> []
                   /\ Forall (dated (ymd_of_day 20350)) (mv_changes m))
         (movements report_example).
Proof.
  apply (movements_are_of_the_day
           jira_url jira_email jira_token (Ok issues_answer)
           search_moved_example changelog_example ymd_of_day 20350).
  vm_compute. reflexivity.
Defined.

Lemma failed_status_search_witness :
  jira_enhanced_status jira_url jira_email jira_token (Raise OtherError)
                       search_moved_example changelog_example ymd_of_day 20350
  = Ok (mk_status_report [] []).
Proof.
  destruct (failed_status_search
              jira_url jira_email jira_token (Raise OtherError)
              search_moved_example changelog_example ymd_of_day 20350
              eq_refl eq_refl) as [H _].
  exact (H OtherError eq_refl).
Defined.

(** With a token that cannot be encoded both functions raise. *)
Lemma broken_credentials_example :
  jira_issues jira_url jira_email broken_token search_range_example 20350 20350
  = Raise ValueError
  /\ jira_enhanced_status jira_url jira_email broken_token (Ok issues_answer)
                          search_moved_example changelog_example ymd_of_day
                          20350
     = Raise ValueError.
Proof. split; vm_compute; reflexivity. Qed.

Lemma pull_requests_up_to_the_first_bad_item_witness :
  github_prs (Some (u "ghp_token")) (Some (u "org/web"))
             check_example search_example 20350 20350
  = map (pr_of (u "org/web")) [one_pr "Add"].
Proof.
  apply (pull_requests_up_to_the_first_bad_item
           (Some (u "ghp_token")) check_example search_example
           (u "org/web") 20350 20350
           (mk_http_response 200
              (Ok (JDict [(u "items",
                           JList [one_pr "Add"; JNull; one_pr "Lost"])])))
           (JDict [(u "items", JList [one_pr "Add"; JNull; one_pr "Lost"])])
           [one_pr "Add"] [one_pr "Lost"] JNull).
  - reflexivity.
  - reflexivity.
  - discriminate.
  - vm_compute. intuition discriminate.
  - reflexivity.
  - reflexivity.
  - reflexivity.
  - reflexivity.
  - reflexivity.
  - repeat constructor.
  - reflexivity.
Defined.

End ClientsMore.
